(** * The face-matching decision procedure of [recognition/views.py]

    A shallow embedding of [RecognitionViewSet.recognize]: the cosine
    confidence of two embeddings, the scan of the gallery that tracks the
    best match, the threshold decision, and the rows the view appends to
    the [RecognitionLog] table.

    The decision procedure reads Python floats (and numpy's float
    arrays) as real numbers; it uses the confidences only through the
    comparisons [>] and [>=], and the two cases where numpy leaves the
    numbers are kept apart: arrays of different shapes make [np.dot]
    raise, and a zero norm makes the quotient [nan], on which every
    comparison is false.  Rounding is modelled in module [Rounded], which
    computes the same confidence in IEEE 754 binary32 and binary64
    arithmetic. *)

From Stdlib Require Import String Reals Lra Psatz Bool Arith Lia List.
From Stdlib Require Import Permutation.
From Stdlib Require SpecFloat.
Import ListNotations.

Local Open Scope R_scope.

(** ** Floats as reals, with the comparisons the view uses *)

Definition Rgtb (x y : R) : bool := if Rgt_dec x y then true else false.
Definition Rgeb (x y : R) : bool := if Rge_dec x y then true else false.

(** ** Embeddings and the confidence of a comparison *)

Module Embedding.

(** [face.embedding]: a one-dimensional numpy array, its floats read as
    reals. *)
Definition t := list R.

(** [np.dot(u, v)] on one-dimensional arrays of the same length. *)
Fixpoint dot (u v : t) : R :=
  match u, v with
  | a :: u', b :: v' => a * b + dot u' v'
  | _, _ => 0
  end.

(** [np.linalg.norm(u)]. *)
Definition norm (u : t) : R := sqrt (dot u u).

(** [similarity = np.dot(p, c) / (np.linalg.norm(p) * np.linalg.norm(c))] *)
Definition similarity (p c : t) : R := dot p c / (norm p * norm c).

(** [confidence = (similarity + 1) / 2] *)
Definition confidence (p c : t) : R := (similarity p c + 1) / 2.

(** What the comparison of the loop body sees.  [None] stands for the two
    cases with no usable number: [np.dot] raising [ValueError] on arrays
    of different lengths (the entry's [except] then skips it), and a zero
    norm, where the quotient is [nan] and [confidence > highest_confidence]
    is false. *)
Definition compare (p c : t) : option R :=
  if Nat.eqb (length p) (length c) then
    if Req_dec_T (norm p * norm c) 0 then None
    else Some (confidence p c)
  else None.

(** The cosine similarity as the specification words it: the dot product
    divided by the product of the two norms. *)
Definition cosine_similarity (p c : t) : R :=
  dot p c / (sqrt (dot p p) * sqrt (dot c c)).

(** A vector is non-zero when one of its coordinates is. *)
Definition nonzero (u : t) : Prop := exists x, In x u /\ x <> 0.

(** The quadratic form behind the Cauchy-Schwarz inequality:
    the sum of the squares of [x * a_i - y * b_i]. *)
Fixpoint gap (x y : R) (u v : t) : R :=
  match u, v with
  | a :: u', b :: v' => (x * a - y * b) * (x * a - y * b) + gap x y u' v'
  | _, _ => 0
  end.

End Embedding.

(** ** The same confidence in floating-point arithmetic *)

Module Rounded.
Import SpecFloat.

Section Format.

(** The format: 24 and 128 for binary32, the type of the engine's
    embeddings; 53 and 1024 for binary64. *)
Variables prec emax : Z.

Definition t := list spec_float.

(** An integer as a float of the format. *)
Definition of_Z (n : Z) : spec_float := binary_normalize prec emax n 0 false.

Definition array (l : list Z) : t := map of_Z l.

(** [np.dot(u, v)], each product and each sum rounded, accumulated from
    the first coordinate on. *)
Fixpoint dot_from (acc : spec_float) (u v : t) : spec_float :=
  match u, v with
  | a :: u', b :: v' =>
      dot_from (SFadd prec emax acc (SFmul prec emax a b)) u' v'
  | _, _ => acc
  end.

Definition dot (u v : t) : spec_float := dot_from (S754_zero false) u v.

(** [np.linalg.norm(u)], the square root of [dot(u, u)]. *)
Definition norm (u : t) : spec_float := SFsqrt prec emax (dot u u).

(** [similarity = np.dot(p, c) / (np.linalg.norm(p) * np.linalg.norm(c))] *)
Definition similarity (p c : t) : spec_float :=
  SFdiv prec emax (dot p c) (SFmul prec emax (norm p) (norm c)).

(** [confidence = (similarity + 1) / 2] *)
Definition confidence (p c : t) : spec_float :=
  SFdiv prec emax (SFadd prec emax (similarity p c) (of_Z 1)) (of_Z 2).

(** The cosine similarity as the specification words it: the dot product
    divided by the product of the two norms. *)
Definition cosine_similarity (p c : t) : spec_float :=
  SFdiv prec emax (dot p c)
    (SFmul prec emax (SFsqrt prec emax (dot p p)) (SFsqrt prec emax (dot c c))).

(** Membership in the interval from 0 to 1. *)
Definition in_unit_interval (x : spec_float) : bool :=
  SFleb (of_Z 0) x && SFleb x (of_Z 1).

End Format.

End Rounded.

(** ** The data the view works on *)

(** One detected face, as [FaceAnalysis.get] returns it. *)
Record Face := mkFace { det_score : R; embedding : Embedding.t }.

(** The exception classes the handlers of the view tell apart. *)
Inductive Exn := MemoryError | OtherException.

(** What [face_analyzer.get(img)] does on a decoded image. *)
Inductive Detection :=
| EngineRaises (e : Exn)
| Detected (faces : list Face).

(** A stored image file, as the imaging library and the engine see it:
    on an unreadable file [cv2.imread] gives [None] and [cv2.resize]
    raises before the engine is reached. *)
Inductive Picture :=
| Unreadable
| Readable (d : Detection).

Module Student.
(** The fields of [users.models.Student] the view reads. *)
Record t := mk { id : nat; face_image : string }.
End Student.

Module RecognitionLog.
(** A row of [recognition.models.RecognitionLog]; [id] and [timestamp]
    are filled by the database and [image] is the upload itself. *)
Record t := mk {
  student : option Student.t;
  confidence : R;
  success : bool;
  processing_time : option R
}.
End RecognitionLog.

(** One call of [face_analyzer.get]: the file it was given and whether it
    returned (rather than raised). *)
Record EngineCall := mkCall { on : string; returned : bool }.

(** The state the view reads and writes. *)
Record World := mkWorld {
  students : list Student.t;               (* [Student.objects], in query order *)
  media : string -> Picture;               (* stored face images, by path *)
  recognition_logs : list RecognitionLog.t;(* rows, oldest first *)
  engine_calls : list EngineCall           (* calls made so far, oldest first *)
}.

(** One request, with what the environment answers during it. *)
Record Request := mkRequest {
  image : option Picture;        (* [request.FILES['image']], if present *)
  threshold_env : option R;      (* [FACE_RECOGNITION_THRESHOLD], if set *)
  primary_init : option Exn;     (* [FaceAnalysis(name="buffalo_l")] and [prepare] *)
  fallback_init : option Exn;    (* [FaceAnalysis()] and [prepare] of the handler *)
  clock_start : R;               (* [time.time()] before the engine is set up *)
  clock_end : R                  (* [time.time()] after the loop *)
}.

(** The [return Response(...)] statements of the view, in source order. *)
Inductive Response :=
| NoImageProvided                                   (* 400 *)
| NoRegisteredStudents                              (* 404 *)
| ErrorProcessingImage                              (* 500 *)
| NoFaceDetected                                    (* 400 *)
| Recognized (confidence : R) (user : Student.t)    (* 200 *)
| NoMatchingStudent (confidence : R)                (* 404 *)
| MemoryLimitExceeded                               (* 503 *)
| RecognitionFailed.                                (* 500 *)

Definition status (r : Response) : nat :=
  match r with
  | NoImageProvided => 400
  | NoRegisteredStudents => 404
  | ErrorProcessingImage => 500
  | NoFaceDetected => 400
  | Recognized _ _ => 200
  | NoMatchingStudent _ => 404
  | MemoryLimitExceeded => 503
  | RecognitionFailed => 500
  end%nat.

(** The outcomes the specification names, and the response each stands
    for. *)
Inductive Outcome :=
| ACCEPTED | NO_FACE | NO_MATCH | NO_GALLERY | RESOURCE_EXHAUSTED | ERROR.

Definition outcome (r : Response) : Outcome :=
  match r with
  | Recognized _ _ => ACCEPTED
  | NoFaceDetected => NO_FACE
  | NoMatchingStudent _ => NO_MATCH
  | NoRegisteredStudents => NO_GALLERY
  | MemoryLimitExceeded => RESOURCE_EXHAUSTED
  | NoImageProvided | ErrorProcessingImage | RecognitionFailed => ERROR
  end.

(** ** The view *)

Definition temp_image_path : string := "/tmp/temp_recognize.jpg".

(** [max(faces, key=lambda x: x.det_score)] on a non-empty list: the
    first face with the greatest score. *)
Definition max_det_score (f : Face) (fs : list Face) : Face :=
  fold_left
    (fun best x => if Rgtb (det_score x) (det_score best) then x else best)
    fs f.

(** [cv2.imread], [cv2.resize] and [face_analyzer.get] on one file. *)
Definition analyse (path : string) (pic : Picture) (calls : list EngineCall)
  : (Exn + list Face) * list EngineCall :=
  match pic with
  | Unreadable => (inl OtherException, calls)
  | Readable (EngineRaises e) => (inl e, calls ++ [mkCall path false])
  | Readable (Detected faces) => (inr faces, calls ++ [mkCall path true])
  end.

(** The two variables the loop updates. *)
Record Tracker := mkTracker {
  best_match : option Student.t;
  highest_confidence : R
}.

Definition initial_tracker : Tracker := mkTracker None 0.

(** The body of [for student in students].  Its [except Exception] also
    catches [MemoryError], a subclass. *)
Definition scan_step (media : string -> Picture) (main_face_embedding : Embedding.t)
    (acc : Tracker * list EngineCall) (student : Student.t)
  : Tracker * list EngineCall :=
  let '(tr, calls) := acc in
  let student_image_path := Student.face_image student in
  match analyse student_image_path (media student_image_path) calls with
  | (inl _, calls') => (tr, calls')
  | (inr [], calls') => (tr, calls')
  | (inr (f :: fs), calls') =>
      let student_face := max_det_score f fs in
      match Embedding.compare main_face_embedding (embedding student_face) with
      | None => (tr, calls')
      | Some confidence =>
          if Rgtb confidence (highest_confidence tr)
          then (mkTracker (Some student) confidence, calls')
          else (tr, calls')
      end
  end.

Definition scan (media : string -> Picture) (main_face_embedding : Embedding.t)
    (gallery : list Student.t) (calls : list EngineCall)
  : Tracker * list EngineCall :=
  fold_left (scan_step media main_face_embedding) gallery
            (initial_tracker, calls).

(** [Student.objects.exclude(face_image='')] *)
Definition registered (sts : list Student.t) : list Student.t :=
  filter (fun s => negb (String.eqb (Student.face_image s) "")) sts.

(** The two outer handlers. *)
Definition handler (e : Exn) : Response :=
  match e with
  | MemoryError => MemoryLimitExceeded
  | OtherException => RecognitionFailed
  end.

Definition with_calls (w : World) (calls : list EngineCall) : World :=
  mkWorld (students w) (media w) (recognition_logs w) calls.

(** [RecognitionLog.objects.create(...)] *)
Definition create_log (w : World) (row : RecognitionLog.t) : World :=
  mkWorld (students w) (media w) (recognition_logs w ++ [row]) (engine_calls w).

(** [float(os.environ.get('FACE_RECOGNITION_THRESHOLD', 0.35))] *)
Definition recognition_threshold (req : Request) : R :=
  match threshold_env req with Some x => x | None => 35 / 100 end.

(** The engine set up by the inner [try]: the fallback runs when the
    first construction raises, and what the fallback raises reaches the
    outer handlers. *)
Definition engine_init (req : Request) : option Exn :=
  match primary_init req with
  | None => None
  | Some _ => fallback_init req
  end.

(** [RecognitionViewSet.recognize].  Writing the upload to the temporary
    file, the queries, [RecognitionLog.objects.create] and
    [RefreshToken.for_user] are taken to succeed; the tokens of the 200
    response are left out. *)
Definition recognize (req : Request) (w : World) : Response * World :=
  match image req with
  | None => (NoImageProvided, w)
  | Some image_file =>
    let recognition_threshold := recognition_threshold req in
    let gallery := registered (students w) in
    match gallery with
    | [] => (NoRegisteredStudents, w)
    | _ :: _ =>
      let start_time := clock_start req in
      match engine_init req with
      | Some e => (handler e, w)
      | None =>
        match analyse temp_image_path image_file (engine_calls w) with
        | (inl _, calls) => (ErrorProcessingImage, with_calls w calls)
        | (inr [], calls) =>
            (NoFaceDetected,
             create_log (with_calls w calls)
               (RecognitionLog.mk None 0 false None))
        | (inr (f :: fs), calls) =>
            let main_face := max_det_score f fs in
            let main_face_embedding := embedding main_face in
            let '(tr, calls') := scan (media w) main_face_embedding gallery calls in
            let processing_time := clock_end req - start_time in
            let w' := with_calls w calls' in
            match best_match tr with
            | Some student =>
                if Rgeb (highest_confidence tr) recognition_threshold
                then
                  (Recognized (highest_confidence tr) student,
                   create_log w'
                     (RecognitionLog.mk (Some student) (highest_confidence tr)
                        true (Some processing_time)))
                else
                  (NoMatchingStudent (highest_confidence tr),
                   create_log w'
                     (RecognitionLog.mk None (highest_confidence tr)
                        false (Some processing_time)))
            | None =>
                (NoMatchingStudent 0,
                 create_log w'
                   (RecognitionLog.mk None 0 false (Some processing_time)))
            end
        end
      end
    end
  end.

(** ** Notions the properties are stated with *)

(** The confidence the loop body reaches for one gallery entry, when it
    reaches one: the entry's image is readable, the engine returns at
    least one face, and the comparison yields a number. *)
Definition candidate_confidence (media : string -> Picture)
    (main_face_embedding : Embedding.t) (student : Student.t) : option R :=
  match media (Student.face_image student) with
  | Readable (Detected (f :: fs)) =>
      Embedding.compare main_face_embedding (embedding (max_det_score f fs))
  | _ => None
  end.

(** The best confidence found over a gallery, as the specification words
    it: the greatest confidence of an entry, 0 if no entry yielded any. *)
Fixpoint best_confidence (media : string -> Picture)
    (main_face_embedding : Embedding.t) (gallery : list Student.t) : R :=
  match gallery with
  | [] => 0
  | student :: rest =>
      match candidate_confidence media main_face_embedding student with
      | Some c => Rmax c (best_confidence media main_face_embedding rest)
      | None => best_confidence media main_face_embedding rest
      end
  end.

(** The update of the loop body, given the confidence the entry reached:
    [if confidence > highest_confidence: ...]. *)
Definition track (tr : Tracker) (student : Student.t) (o : option R) : Tracker :=
  match o with
  | Some confidence =>
      if Rgtb confidence (highest_confidence tr)
      then mkTracker (Some student) confidence
      else tr
  | None => tr
  end.

(** The tracker after a pass over [gallery] that started from [tr]. *)
Definition tracked (media : string -> Picture)
    (main_face_embedding : Embedding.t) (gallery : list Student.t)
    (tr : Tracker) : Tracker :=
  fold_left
    (fun tr student =>
       track tr student (candidate_confidence media main_face_embedding student))
    gallery tr.

(** What a tracker that started from [initial_tracker] holds: nobody and
    0, or an entry of the gallery with its own, positive, confidence. *)
Definition tracker_ok (media : string -> Picture)
    (main_face_embedding : Embedding.t) (gallery : list Student.t)
    (tr : Tracker) : Prop :=
  match best_match tr with
  | None => highest_confidence tr = 0
  | Some s =>
      In s gallery /\
      candidate_confidence media main_face_embedding s =
        Some (highest_confidence tr) /\
      0 < highest_confidence tr
  end.

(** A bad reference: a corrupt file, an engine failure on it, or no face
    in it. *)
Definition bad_reference (pic : Picture) : bool :=
  match pic with
  | Unreadable => true
  | Readable (EngineRaises _) => true
  | Readable (Detected []) => true
  | Readable (Detected (_ :: _)) => false
  end.

(** The engine calls one pass over a gallery makes. *)
Definition gallery_calls (media : string -> Picture)
    (gallery : list Student.t) : list EngineCall :=
  flat_map
    (fun student =>
       match media (Student.face_image student) with
       | Unreadable => []
       | Readable (EngineRaises _) => [mkCall (Student.face_image student) false]
       | Readable (Detected _) => [mkCall (Student.face_image student) true]
       end)
    gallery.

(** How many calls of a log were made on a given file. *)
Definition calls_on (path : string) (calls : list EngineCall) : nat :=
  List.length (filter (fun c => String.eqb (on c) path) calls).

(** How many calls of a log returned. *)
Definition successful_calls (calls : list EngineCall) : nat :=
  List.length (filter returned calls).

(** The rows a request appended to the log table. *)
Definition new_rows (req : Request) (w : World) : list RecognitionLog.t :=
  skipn (List.length (recognition_logs w))
        (recognition_logs (snd (recognize req w))).

(** A request that gets as far as the loop: an upload in which the
    engine, once set up, finds the faces [f :: fs]. *)
Definition reaches_scan (req : Request) (f : Face) (fs : list Face) : Prop :=
  image req = Some (Readable (Detected (f :: fs))) /\ engine_init req = None.

(** The view from the end of the loop on: the threshold test, the row it
    writes and the response, given the tracker the loop left and the
    world with the engine calls made. *)
Definition decision (req : Request) (w' : World) (tr : Tracker)
  : Response * World :=
  let processing_time := clock_end req - clock_start req in
  match best_match tr with
  | Some student =>
      if Rgeb (highest_confidence tr) (recognition_threshold req)
      then
        (Recognized (highest_confidence tr) student,
         create_log w'
           (RecognitionLog.mk (Some student) (highest_confidence tr)
              true (Some processing_time)))
      else
        (NoMatchingStudent (highest_confidence tr),
         create_log w'
           (RecognitionLog.mk None (highest_confidence tr)
              false (Some processing_time)))
  | None =>
      (NoMatchingStudent 0,
       create_log w'
         (RecognitionLog.mk None 0 false (Some processing_time)))
  end.

(** The engine calls of a request that reaches the loop: one on the
    upload, then one pass over the gallery. *)
Definition request_calls (w : World) : list EngineCall :=
  mkCall temp_image_path true :: gallery_calls (media w) (registered (students w)).

(** ** Example data *)

Module Fixture.

Definition probe : Embedding.t := [1; 0; 0; 0].
Definition e50 : Embedding.t := [0; 1; 0; 0].     (* cosine 0 *)
Definition e20 : Embedding.t := [-3; 4; 0; 0].    (* cosine -3/5 *)
Definition e40 : Embedding.t := [-1; 4; 2; 2].    (* cosine -1/5 *)
Definition e00 : Embedding.t := [-1; 0; 0; 0].    (* cosine -1 *)

Definition face (e : Embedding.t) : Face := mkFace (9 / 10) e.
Definition one_face (e : Embedding.t) : Picture :=
  Readable (Detected [face e]).
Definition no_face : Picture := Readable (Detected []).

Definition alice := Student.mk 1 "student_faces/alice.jpg".
Definition bob := Student.mk 2 "student_faces/bob.jpg".
Definition carol := Student.mk 3 "student_faces/carol.jpg".
Definition dave := Student.mk 4 "".

Definition world (sts : list Student.t) (a b c : Picture) : World :=
  mkWorld sts
    (fun path =>
       if String.eqb path "student_faces/alice.jpg" then a
       else if String.eqb path "student_faces/bob.jpg" then b
       else if String.eqb path "student_faces/carol.jpg" then c
       else Unreadable)
    [] [].

Definition request (pic : Picture) (thr : option R) : Request :=
  mkRequest (Some pic) thr None None 100 103.

(** One registered student scoring 0.50. *)
Definition w_half : World :=
  world [alice] (one_face e50) Unreadable Unreadable.

(** Three registered students: a corrupt file, then 0.20 and 0.40. *)
Definition w_three : World :=
  world [alice; bob; carol] Unreadable (one_face e20) (one_face e40).

(** Two students tied at confidence 0. *)
Definition w_tie0 : World :=
  world [alice; bob] (one_face e00) (one_face e00) Unreadable.

(** Two students tied at confidence 0.50, then a lower one. *)
Definition w_tie : World :=
  world [alice; bob; carol] (one_face e50) (one_face e50) (one_face e20).

(** Only bad references. *)
Definition w_bad : World :=
  world [alice; bob; carol] Unreadable no_face
    (Readable (EngineRaises MemoryError)).

(** Nobody has registered a face. *)
Definition w_empty : World :=
  world [dave] Unreadable Unreadable Unreadable.

End Fixture.

(** ** Registering a face *)

(** An uploaded file of the registration form, by what each library makes
    of it: whether [serializers.ImageField] accepts it, what
    [face_analyzer.get(cv2.imread(path))] does on it as it is (the view
    does not resize here; on a file [cv2.imread] cannot read the engine is
    called on [None] and raises), and the picture [recognize] will find
    once the file is stored. *)
Record Upload := mkUpload {
  is_image : bool;
  as_read : Detection;
  as_stored : Picture
}.

Module Registration.
(** One request to [register_face], with what the environment answers
    during it. *)
Record t := mk {
  student_id : option nat;     (* [request.data['student_id']], if a UUID *)
  image : option Upload;       (* [request.data['image']], if present *)
  engine_init : option Exn;    (* [FaceAnalysis(name="buffalo_l")] and [prepare] *)
  file_name : string           (* the name the storage gives the saved file *)
}.
End Registration.

(** The [return Response(...)] statements of [register_face]. *)
Inductive RegisterResponse :=
| InvalidRegistration       (* 400, the serializer's errors *)
| NoFaceInUpload            (* 400, NO_FACE_DETECTED *)
| FaceRegistered            (* 200 *)
| RegistrationError.        (* 500, REGISTRATION_ERROR *)

Definition temp_register_path : string := "/tmp/temp_register.jpg".

(** [upload_to='student_faces/'] of [Student.face_image]. *)
Definition upload_to : string := "student_faces/".

(** [FaceRegistrationSerializer(data=request.data).is_valid()], giving
    the validated data. *)
Definition validated (reg : Registration.t) : option (nat * Upload) :=
  match Registration.student_id reg, Registration.image reg with
  | Some sid, Some up => if is_image up then Some (sid, up) else None
  | _, _ => None
  end.

(** The lookup of [get_object_or_404(Student, id=...)]. *)
Definition get_student (sid : nat) (sts : list Student.t) : option Student.t :=
  find (fun s => Nat.eqb (Student.id s) sid) sts.

(** [student.face_image = image_file; student.save()]: the row of that
    primary key gets the path of the stored file. *)
Definition save_face_image (sid : nat) (path : string)
    (sts : list Student.t) : list Student.t :=
  map (fun s => if Nat.eqb (Student.id s) sid
                then Student.mk (Student.id s) path else s)
      sts.

(** The storage after a file has been written at [path]. *)
Definition store (path : string) (pic : Picture) (media : string -> Picture)
  : string -> Picture :=
  fun q => if String.eqb q path then pic else media q.

(** [RecognitionViewSet.register_face], for a caller the permission
    class has let in.  Its one [except Exception] catches whatever is
    raised in the body, the [Http404] of [get_object_or_404] included;
    writing the temporary file and [student.save()] are taken to
    succeed. *)
Definition register_face (reg : Registration.t) (w : World)
  : RegisterResponse * World :=
  match validated reg with
  | None => (InvalidRegistration, w)
  | Some (sid, image_file) =>
    match get_student sid (students w) with
    | None => (RegistrationError, w)
    | Some student =>
      match Registration.engine_init reg with
      | Some _ => (RegistrationError, w)
      | None =>
        match as_read image_file with
        | EngineRaises _ =>
            (RegistrationError,
             with_calls w (engine_calls w ++ [mkCall temp_register_path false]))
        | Detected [] =>
            (NoFaceInUpload,
             with_calls w (engine_calls w ++ [mkCall temp_register_path true]))
        | Detected (_ :: _) =>
            let path := (upload_to ++ Registration.file_name reg)%string in
            (FaceRegistered,
             mkWorld (save_face_image sid path (students w))
                     (store path (as_stored image_file) (media w))
                     (recognition_logs w)
                     (engine_calls w ++ [mkCall temp_register_path true]))
        end
      end
    end
  end.

(** ** The dashboard counters *)

(** [Student.objects.count()] of [dashboard_stats]. *)
Definition total_students (w : World) : nat := List.length (students w).

(** [RecognitionLog.objects.filter(success=False).count()] of
    [dashboard_stats]. *)
Definition failed_attempts (w : World) : nat :=
  List.length
    (filter (fun row => negb (RecognitionLog.success row)) (recognition_logs w)).

(** ** Further notions *)

(** Requests served one after the other. *)
Definition serve (reqs : list Request) (w : World) : World :=
  fold_left (fun w req => snd (recognize req w)) reqs w.

(** The same request under another configured threshold. *)
Definition with_threshold (req : Request) (thr : R) : Request :=
  mkRequest (image req) (Some thr) (primary_init req) (fallback_init req)
            (clock_start req) (clock_end req).

(** The confidence a response carries, if it carries one. *)
Definition response_confidence (r : Response) : option R :=
  match r with
  | Recognized c _ => Some c
  | NoMatchingStudent c => Some c
  | _ => None
  end.

(** The row each response comes with. *)
Definition row_of (req : Request) (r : Response) : list RecognitionLog.t :=
  match r with
  | Recognized c s =>
      [RecognitionLog.mk (Some s) c true
         (Some (clock_end req - clock_start req))]
  | NoMatchingStudent c =>
      [RecognitionLog.mk None c false
         (Some (clock_end req - clock_start req))]
  | NoFaceDetected => [RecognitionLog.mk None 0 false None]
  | _ => []
  end.


(** ** Example data for registration *)

Module RegistrationFixture.
Import Fixture.

(** A readable upload showing the face of [probe]. *)
Definition portrait : Upload :=
  mkUpload true (Detected [face probe]) (one_face probe).

(** Dave, who has no face image yet, registers the portrait. *)
Definition dave_registers : Registration.t :=
  Registration.mk (Some 4%nat) (Some portrait) None "dave.jpg".

(** The same form for a student nobody knows. *)
Definition stranger_registers : Registration.t :=
  Registration.mk (Some 9%nat) (Some portrait) None "stranger.jpg".

End RegistrationFixture.

(** * Properties *)

(** ** The comparisons *)

Lemma Rgtb_true (x y : R) : Rgtb x y = true <-> x > y.
Proof. unfold Rgtb; destruct (Rgt_dec x y); split; intros; try easy. Qed.

Lemma Rgtb_false (x y : R) : Rgtb x y = false <-> x <= y.
Proof.
  unfold Rgtb; destruct (Rgt_dec x y); split; intros; try easy; lra.
Qed.

Lemma Rgeb_true (x y : R) : Rgeb x y = true <-> x >= y.
Proof. unfold Rgeb; destruct (Rge_dec x y); split; intros; try easy. Qed.

Lemma Rgeb_false (x y : R) : Rgeb x y = false <-> x < y.
Proof.
  unfold Rgeb; destruct (Rge_dec x y); split; intros; try easy; lra.
Qed.

(** ** The cosine confidence *)

Module EmbeddingFacts.
Import Embedding.

Lemma dot_self_nonneg (u : t) : 0 <= dot u u.
Proof. induction u as [|a u IH]; simpl; [lra | nra]. Qed.

Lemma dot_self_pos (u : t) : nonzero u -> 0 < dot u u.
Proof.
  intros [x [Hin Hx]].
  induction u as [|a u IH]; simpl in *; [contradiction|].
  pose proof (dot_self_nonneg u) as Hu.
  destruct Hin as [-> | Hin].
  - nra.
  - specialize (IH Hin). nra.
Qed.

Lemma norm_pos (u : t) : nonzero u -> 0 < norm u.
Proof. intros H. apply sqrt_lt_R0, dot_self_pos, H. Qed.

Lemma norm_nonneg (u : t) : 0 <= norm u.
Proof. apply sqrt_pos. Qed.

Lemma norm_sqr (u : t) : norm u * norm u = dot u u.
Proof. apply sqrt_sqrt, dot_self_nonneg. Qed.

Lemma gap_nonneg (x y : R) (u v : t) : 0 <= gap x y u v.
Proof.
  revert v; induction u as [|a u IH]; intros [|b v]; simpl; try lra.
  specialize (IH v).
  pose proof (Rle_0_sqr (x * a - y * b)) as Hsq. unfold Rsqr in Hsq. lra.
Qed.

Lemma gap_expand (x y : R) (u v : t) :
  length u = length v ->
  gap x y u v = x * x * dot u u - 2 * x * y * dot u v + y * y * dot v v.
Proof.
  revert v; induction u as [|a u IH]; intros [|b v] Hlen; simpl in *;
    try discriminate; [ring|].
  rewrite IH by congruence. ring.
Qed.

(** A form [x^2 U - 2 x y d + y^2 V] that is never negative and has
    [U = 0] has [d = 0]. *)
Lemma form_degenerate (U V d : R) :
  (forall x y, 0 <= x * x * U - 2 * x * y * d + y * y * V) ->
  U = 0 -> d = 0.
Proof.
  intros Hform HU.
  destruct (Req_dec d 0) as [Hd | Hd]; [assumption | exfalso].
  specialize (Hform ((V + 1) / (2 * d)) 1). rewrite HU in Hform.
  replace (2 * ((V + 1) / (2 * d)) * 1 * d) with (V + 1) in Hform
    by (field; assumption).
  lra.
Qed.

Lemma dot_zero_l (u v : t) :
  length u = length v -> dot u u = 0 -> dot u v = 0.
Proof.
  intros Hlen HU.
  apply (form_degenerate (dot u u) (dot v v)); [|assumption].
  intros x y. rewrite <- (gap_expand x y u v Hlen). apply gap_nonneg.
Qed.

Lemma dot_zero_r (u v : t) :
  length u = length v -> dot v v = 0 -> dot u v = 0.
Proof.
  intros Hlen HV.
  apply (form_degenerate (dot v v) (dot u u)); [|assumption].
  intros x y. pose proof (gap_nonneg y x u v) as H.
  rewrite gap_expand in H by assumption. lra.
Qed.

Lemma cauchy_schwarz (u v : t) :
  length u = length v ->
  Rabs (dot u v) <= norm u * norm v.
Proof.
  intros Hlen.
  pose proof (norm_nonneg u) as Hu. pose proof (norm_nonneg v) as Hv.
  pose proof (norm_sqr u) as Hu2. pose proof (norm_sqr v) as Hv2.
  destruct (Req_dec (norm u * norm v) 0) as [Hz | Hnz].
  - (* one of the vectors has norm zero: the dot product vanishes *)
    assert (Hd : dot u v = 0).
    { destruct (Rmult_integral _ _ Hz) as [Ha | Hb].
      - apply dot_zero_l; [assumption|]. rewrite <- Hu2, Ha. ring.
      - apply dot_zero_r; [assumption|]. rewrite <- Hv2, Hb. ring. }
    rewrite Hd, Hz, Rabs_R0. lra.
  - pose proof (gap_nonneg (norm v) (norm u) u v) as Hm.
    pose proof (gap_nonneg (norm v) (- norm u) u v) as Hp.
    rewrite gap_expand in Hm, Hp by assumption.
    rewrite <- Hu2, <- Hv2 in Hm, Hp.
    set (a := norm u) in *. set (b := norm v) in *.
    set (d := dot u v) in *.
    assert (Hab : 0 < a * b) by nra.
    assert (Hm' : 0 <= 2 * (a * b) * (a * b - d)) by lra.
    assert (Hp' : 0 <= 2 * (a * b) * (a * b + d)) by lra.
    apply Rabs_le. split; nra.
Qed.

Lemma compare_some (p c : t) :
  length p = length c -> norm p * norm c <> 0 ->
  compare p c = Some (confidence p c).
Proof.
  intros Hlen Hn. unfold compare.
  rewrite Hlen, Nat.eqb_refl.
  destruct (Req_dec_T (norm c * norm c) 0); [|].
  - destruct (Req_dec_T (norm p * norm c) 0); [contradiction | reflexivity].
  - destruct (Req_dec_T (norm p * norm c) 0); [contradiction | reflexivity].
Qed.

Lemma compare_inv (p c : t) (x : R) :
  compare p c = Some x ->
  length p = length c /\ norm p * norm c <> 0 /\ x = confidence p c.
Proof.
  unfold compare. destruct (Nat.eqb (length p) (length c)) eqn:E; [|discriminate].
  destruct (Req_dec_T (norm p * norm c) 0); [discriminate|].
  intros [= <-]. apply Nat.eqb_eq in E. auto.
Qed.

Lemma similarity_bounds (p c : t) :
  length p = length c -> norm p * norm c <> 0 ->
  -1 <= similarity p c <= 1.
Proof.
  intros Hlen Hn.
  pose proof (cauchy_schwarz p c Hlen) as Hcs.
  pose proof (norm_nonneg p). pose proof (norm_nonneg c).
  assert (Hpos : 0 < norm p * norm c) by nra.
  assert (Hb : - (norm p * norm c) <= dot p c <= norm p * norm c)
    by (unfold Rabs in Hcs; destruct (Rcase_abs (dot p c)); lra).
  unfold similarity.
  split.
  - apply Rmult_le_reg_r with (norm p * norm c); [assumption|].
    unfold Rdiv. rewrite Rmult_assoc, Rinv_l by assumption. lra.
  - apply Rmult_le_reg_r with (norm p * norm c); [assumption|].
    unfold Rdiv. rewrite Rmult_assoc, Rinv_l by assumption. lra.
Qed.

(** In exact arithmetic a confidence lies between 0 and 1. *)
Lemma compare_bounds (p c : t) (x : R) :
  compare p c = Some x -> 0 <= x <= 1.
Proof.
  intros H. apply compare_inv in H as (Hlen & Hn & ->).
  pose proof (similarity_bounds p c Hlen Hn). unfold confidence. lra.
Qed.

Lemma norm_eq (u : t) (n : R) : 0 <= n -> n * n = dot u u -> norm u = n.
Proof.
  intros Hn Hsq. unfold norm. apply sqrt_lem_1; auto.
  apply dot_self_nonneg.
Qed.

(** In exact arithmetic: for two non-zero embeddings of the same length
    the confidence is [(cosine_similarity + 1) / 2] and lies between 0
    and 1.  The rounded computation of [Rounded] does not keep the
    bounds. *)
Lemma exact_confidence_bounds (p c : t) :
  length p = length c -> nonzero p -> nonzero c ->
  compare p c = Some ((cosine_similarity p c + 1) / 2) /\
  0 <= (cosine_similarity p c + 1) / 2 <= 1.
Proof.
  intros Hlen Hp Hc.
  pose proof (norm_pos p Hp) as Hnp. pose proof (norm_pos c Hc) as Hnc.
  assert (Hn : norm p * norm c <> 0) by nra.
  assert (Heq : compare p c = Some ((cosine_similarity p c + 1) / 2)).
  { rewrite (compare_some p c Hlen Hn). reflexivity. }
  split; [exact Heq|]. exact (compare_bounds p c _ Heq).
Qed.

End EmbeddingFacts.

(** ** The confidence under rounding *)

(** C2 fails on the code: the confidence is computed as
    [(cosine_similarity + 1) / 2], the cosine similarity being the dot
    product over the product of the two norms, but every operation
    rounds, and the result can leave the interval from 0 to 1.  In
    binary32 the non-zero embeddings [1, 1] and [-1, -1] give [-2^-24],
    about -5.96e-08, also when both are padded with zeros to the 512
    coordinates of the engine; in binary64 [1, 5] and [-1, -5] give
    [-2^-53]. *)
Theorem rounded_confidence_leaves_unit_interval :
  (forall prec emax p c,
     Rounded.confidence prec emax p c
     = SpecFloat.SFdiv prec emax
         (SpecFloat.SFadd prec emax (Rounded.cosine_similarity prec emax p c)
            (Rounded.of_Z prec emax 1))
         (Rounded.of_Z prec emax 2)) /\
  Rounded.confidence 24 128
    (Rounded.array 24 128 [1; 1]%Z) (Rounded.array 24 128 [-1; -1]%Z)
  = SpecFloat.S754_finite true 8388608 (-47) /\
  Rounded.in_unit_interval 24 128
    (Rounded.confidence 24 128
       (Rounded.array 24 128 [1; 1]%Z) (Rounded.array 24 128 [-1; -1]%Z))
  = false /\
  Rounded.confidence 53 1024
    (Rounded.array 53 1024 [1; 5]%Z) (Rounded.array 53 1024 [-1; -5]%Z)
  = SpecFloat.S754_finite true 4503599627370496 (-105) /\
  Rounded.in_unit_interval 53 1024
    (Rounded.confidence 53 1024
       (Rounded.array 53 1024 [1; 5]%Z) (Rounded.array 53 1024 [-1; -5]%Z))
  = false /\
  Rounded.confidence 24 128
    (Rounded.array 24 128 ([1; 1] ++ repeat 0 510)%Z)
    (Rounded.array 24 128 ([-1; -1] ++ repeat 0 510)%Z)
  = SpecFloat.S754_finite true 8388608 (-47).
Proof.
  split; [intros prec emax p c; reflexivity|].
  repeat split; vm_compute; reflexivity.
Qed.

(** ** The scan *)

Section ScanFacts.

Variable media : string -> Picture.
Variable p : Embedding.t.

Let cc := candidate_confidence media p.

Lemma scan_step_fst (tr : Tracker) (calls : list EngineCall) (s : Student.t) :
  fst (scan_step media p (tr, calls) s) = track tr s (cc s).
Proof.
  unfold scan_step, cc, candidate_confidence, analyse, track.
  destruct (media (Student.face_image s)) as [|[e|[|f fs]]]; try reflexivity.
  destruct (Embedding.compare p (embedding (max_det_score f fs)));
    [|reflexivity].
  destruct (Rgtb r (highest_confidence tr)); reflexivity.
Qed.

Lemma scan_step_snd (tr : Tracker) (calls : list EngineCall) (s : Student.t) :
  snd (scan_step media p (tr, calls) s) = calls ++ gallery_calls media [s].
Proof.
  unfold scan_step, analyse, gallery_calls. cbn [flat_map].
  rewrite app_nil_r.
  destruct (media (Student.face_image s)) as [|[e|[|f fs]]]; cbn [snd];
    try reflexivity; try (rewrite app_nil_r; reflexivity).
  destruct (Embedding.compare p (embedding (max_det_score f fs)));
    [|reflexivity].
  destruct (Rgtb r (highest_confidence tr)); reflexivity.
Qed.

Lemma fold_scan_step (l : list Student.t) (tr : Tracker)
    (calls : list EngineCall) :
  fold_left (scan_step media p) l (tr, calls) =
  (tracked media p l tr, calls ++ gallery_calls media l).
Proof.
  revert tr calls. induction l as [|s l IH]; intros tr calls.
  - cbn. rewrite app_nil_r. reflexivity.
  - cbn [fold_left].
    rewrite (surjective_pairing (scan_step media p (tr, calls) s)).
    rewrite scan_step_fst, scan_step_snd, IH.
    unfold tracked, gallery_calls. cbn [fold_left flat_map].
    rewrite app_nil_r, app_assoc. reflexivity.
Qed.

Lemma scan_eq (l : list Student.t) (calls : list EngineCall) :
  scan media p l calls =
  (tracked media p l initial_tracker, calls ++ gallery_calls media l).
Proof. apply fold_scan_step. Qed.

Lemma tracked_app (l1 l2 : list Student.t) (tr : Tracker) :
  tracked media p (l1 ++ l2) tr = tracked media p l2 (tracked media p l1 tr).
Proof. apply fold_left_app. Qed.

Lemma tracked_cons (s : Student.t) (l : list Student.t) (tr : Tracker) :
  tracked media p (s :: l) tr = tracked media p l (track tr s (cc s)).
Proof. reflexivity. Qed.

(** The tracked confidence never decreases. *)
Lemma track_mono (tr : Tracker) (s : Student.t) (o : option R) :
  highest_confidence tr <= highest_confidence (track tr s o).
Proof.
  unfold track. destruct o as [c|]; [|lra].
  destruct (Rgtb c (highest_confidence tr)) eqn:E; [|lra].
  apply Rgtb_true in E. cbn. lra.
Qed.

(** A pass over entries none of which beats the tracker leaves it as it
    was. *)
Lemma tracked_unchanged (l : list Student.t) (tr : Tracker) :
  (forall x c, In x l -> cc x = Some c -> c <= highest_confidence tr) ->
  tracked media p l tr = tr.
Proof.
  induction l as [|s l IH]; intros H; [reflexivity|].
  rewrite tracked_cons.
  assert (Hs : track tr s (cc s) = tr).
  { unfold track. destruct (cc s) as [c|] eqn:E; [|reflexivity].
    assert (Hc : c <= highest_confidence tr) by (apply (H s); [left|]; auto).
    apply Rgtb_false in Hc. rewrite Hc. reflexivity. }
  rewrite Hs. apply IH. intros x c Hx. apply H. right. exact Hx.
Qed.

(** A pass over entries all strictly below [m], from a tracker strictly
    below [m], ends strictly below [m]. *)
Lemma tracked_below (l : list Student.t) (tr : Tracker) (m : R) :
  highest_confidence tr < m ->
  (forall x c, In x l -> cc x = Some c -> c < m) ->
  highest_confidence (tracked media p l tr) < m.
Proof.
  revert tr. induction l as [|s l IH]; intros tr Htr H; [exact Htr|].
  rewrite tracked_cons. apply IH.
  - unfold track. destruct (cc s) as [c|] eqn:E; [|exact Htr].
    destruct (Rgtb c (highest_confidence tr)); [|exact Htr].
    cbn. apply (H s); [left|]; auto.
  - intros x c Hx. apply H. right. exact Hx.
Qed.

(** The first entry that reaches the greatest confidence is the one
    tracked, provided that confidence beats the starting one. *)
Lemma tracked_first_max (pre post : list Student.t) (s : Student.t)
    (tr : Tracker) (m : R) :
  cc s = Some m ->
  highest_confidence tr < m ->
  (forall x c, In x pre -> cc x = Some c -> c < m) ->
  (forall x c, In x post -> cc x = Some c -> c <= m) ->
  tracked media p (pre ++ s :: post) tr = mkTracker (Some s) m.
Proof.
  intros Hs Htr Hpre Hpost.
  rewrite tracked_app, tracked_cons.
  pose proof (tracked_below pre tr m Htr Hpre) as Hlt.
  assert (Hstep : track (tracked media p pre tr) s (cc s) = mkTracker (Some s) m).
  { unfold track. rewrite Hs.
    assert (Hgt : m > highest_confidence (tracked media p pre tr)) by lra.
    apply Rgtb_true in Hgt. rewrite Hgt. reflexivity. }
  rewrite Hstep. apply tracked_unchanged. exact Hpost.
Qed.

(** An entry that reaches no confidence does not matter to the pass. *)
Lemma tracked_skip (pre post : list Student.t) (s : Student.t) (tr : Tracker) :
  cc s = None ->
  tracked media p (pre ++ s :: post) tr = tracked media p (pre ++ post) tr.
Proof.
  intros Hs. rewrite !tracked_app, tracked_cons, Hs. reflexivity.
Qed.

(** The tracked confidence is the best confidence of the gallery. *)
Lemma tracked_highest (l : list Student.t) (tr : Tracker) :
  0 <= highest_confidence tr ->
  highest_confidence (tracked media p l tr) =
  Rmax (highest_confidence tr) (best_confidence media p l).
Proof.
  revert tr. induction l as [|s l IH]; intros tr Htr.
  - cbn. rewrite Rmax_left; lra.
  - rewrite tracked_cons. cbn [best_confidence]. fold cc.
    pose proof (track_mono tr s (cc s)) as Hmono.
    rewrite IH by lra.
    unfold track. destruct (cc s) as [c|]; [|reflexivity].
    destruct (Rgtb c (highest_confidence tr)) eqn:E.
    + apply Rgtb_true in E. cbn [highest_confidence].
      unfold Rmax; repeat destruct (Rle_dec _ _); lra.
    + apply Rgtb_false in E.
      unfold Rmax; repeat destruct (Rle_dec _ _); lra.
Qed.

Lemma tracked_ok (gallery l : list Student.t) (tr : Tracker) :
  incl l gallery -> tracker_ok media p gallery tr ->
  tracker_ok media p gallery (tracked media p l tr).
Proof.
  revert tr. induction l as [|s l IH]; intros tr Hincl Hok; [exact Hok|].
  rewrite tracked_cons. apply IH.
  - intros x Hx. apply Hincl. right. exact Hx.
  - unfold track. destruct (cc s) as [c|] eqn:E; [|exact Hok].
    destruct (Rgtb c (highest_confidence tr)) eqn:G; [|exact Hok].
    apply Rgtb_true in G. unfold tracker_ok. cbn.
    split; [apply Hincl; left; reflexivity|]. split; [exact E|].
    unfold tracker_ok in Hok. destruct (best_match tr); lra.
Qed.

Lemma scan_ok (gallery : list Student.t) :
  tracker_ok media p gallery (tracked media p gallery initial_tracker).
Proof. apply tracked_ok; [apply incl_refl | reflexivity]. Qed.

Lemma best_confidence_nonneg (l : list Student.t) :
  0 <= best_confidence media p l.
Proof.
  induction l as [|s l IH]; cbn; [lra|].
  destruct (candidate_confidence media p s); [|exact IH].
  pose proof (Rmax_r r (best_confidence media p l)). lra.
Qed.

Lemma scan_highest (gallery : list Student.t) :
  highest_confidence (tracked media p gallery initial_tracker) =
  best_confidence media p gallery.
Proof.
  rewrite tracked_highest by (cbn; lra). cbn.
  apply Rmax_right, best_confidence_nonneg.
Qed.

End ScanFacts.

(** An entry with a bad reference reaches no confidence. *)
Lemma bad_reference_skipped (media : string -> Picture) (p : Embedding.t)
    (s : Student.t) :
  bad_reference (media (Student.face_image s)) = true ->
  candidate_confidence media p s = None.
Proof.
  unfold candidate_confidence.
  destruct (media (Student.face_image s)) as [|[e|[|f fs]]];
    reflexivity || discriminate.
Qed.

(** ** The view, by the path it takes *)

Lemma recognize_scanned (req : Request) (w : World) (f : Face) (fs : list Face) :
  reaches_scan req f fs -> registered (students w) <> [] ->
  recognize req w =
  decision req
    (with_calls w (engine_calls w ++ request_calls w))
    (tracked (media w) (embedding (max_det_score f fs))
       (registered (students w)) initial_tracker).
Proof.
  intros [Himg Hinit] Hgal. unfold recognize, decision, request_calls.
  rewrite Himg, Hinit.
  destruct (registered (students w)) as [|s0 gallery] eqn:G; [contradiction|].
  unfold analyse. rewrite scan_eq.
  rewrite <- app_assoc. cbn [app]. reflexivity.
Qed.

Lemma recognize_no_gallery (req : Request) (w : World) (pic : Picture) :
  image req = Some pic -> registered (students w) = [] ->
  recognize req w = (NoRegisteredStudents, w).
Proof. intros Himg Hgal. unfold recognize. rewrite Himg, Hgal. reflexivity. Qed.

Lemma recognize_init_fails (req : Request) (w : World) (pic : Picture) (e : Exn) :
  image req = Some pic -> registered (students w) <> [] ->
  engine_init req = Some e ->
  recognize req w = (handler e, w).
Proof.
  intros Himg Hgal Hinit. unfold recognize. rewrite Himg, Hinit.
  destruct (registered (students w)); [contradiction | reflexivity].
Qed.

Lemma recognize_no_face (req : Request) (w : World) :
  image req = Some (Readable (Detected [])) ->
  registered (students w) <> [] -> engine_init req = None ->
  recognize req w =
  (NoFaceDetected,
   create_log (with_calls w (engine_calls w ++ [mkCall temp_image_path true]))
     (RecognitionLog.mk None 0 false None)).
Proof.
  intros Himg Hgal Hinit. unfold recognize. rewrite Himg, Hinit.
  destruct (registered (students w)); [contradiction | reflexivity].
Qed.

Lemma decision_rows (req : Request) (w' : World) (tr : Tracker) :
  exists row,
    recognition_logs (snd (decision req w' tr)) = recognition_logs w' ++ [row] /\
    RecognitionLog.processing_time row = Some (clock_end req - clock_start req) /\
    (RecognitionLog.success row = false -> RecognitionLog.student row = None) /\
    (RecognitionLog.success row = true <->
     outcome (fst (decision req w' tr)) = ACCEPTED).
Proof.
  unfold decision. destruct (best_match tr) as [s|].
  - destruct (Rgeb (highest_confidence tr) (recognition_threshold req));
      eexists; cbn; repeat split; try reflexivity; try discriminate.
  - eexists; cbn; repeat split; try reflexivity; try discriminate.
Qed.

Lemma decision_outcome (req : Request) (w' : World) (tr : Tracker) :
  outcome (fst (decision req w' tr)) = ACCEPTED \/
  outcome (fst (decision req w' tr)) = NO_MATCH.
Proof.
  unfold decision. destruct (best_match tr) as [s|]; [|right; reflexivity].
  destruct (Rgeb (highest_confidence tr) (recognition_threshold req));
    [left | right]; reflexivity.
Qed.

Lemma skipn_app_length {A : Type} (l rows : list A) :
  skipn (length l) (l ++ rows) = rows.
Proof. induction l as [|a l IH]; [reflexivity | exact IH]. Qed.

(** ** The example data, evaluated *)

Module FixtureFacts.
Import Embedding EmbeddingFacts Fixture.

Lemma norm_probe : norm probe = 1.
Proof. apply norm_eq; [lra | cbn [probe dot]; ring]. Qed.

Lemma norm_e50 : norm e50 = 1.
Proof. apply norm_eq; [lra | cbn [e50 dot]; ring]. Qed.

Lemma norm_e20 : norm e20 = 5.
Proof. apply norm_eq; [lra | cbn [e20 dot]; ring]. Qed.

Lemma norm_e40 : norm e40 = 5.
Proof. apply norm_eq; [lra | cbn [e40 dot]; ring]. Qed.

Lemma norm_e00 : norm e00 = 1.
Proof. apply norm_eq; [lra | cbn [e00 dot]; ring]. Qed.

Lemma compare_e50 : compare probe e50 = Some (1 / 2).
Proof.
  rewrite compare_some; [|reflexivity|rewrite norm_probe, norm_e50; lra].
  unfold confidence, similarity. rewrite norm_probe, norm_e50.
  cbn [probe e50 dot]. f_equal. field.
Qed.

Lemma compare_e20 : compare probe e20 = Some (1 / 5).
Proof.
  rewrite compare_some; [|reflexivity|rewrite norm_probe, norm_e20; lra].
  unfold confidence, similarity. rewrite norm_probe, norm_e20.
  cbn [probe e20 dot]. f_equal. field.
Qed.

Lemma compare_e40 : compare probe e40 = Some (2 / 5).
Proof.
  rewrite compare_some; [|reflexivity|rewrite norm_probe, norm_e40; lra].
  unfold confidence, similarity. rewrite norm_probe, norm_e40.
  cbn [probe e40 dot]. f_equal. field.
Qed.

Lemma compare_e00 : compare probe e00 = Some 0.
Proof.
  rewrite compare_some; [|reflexivity|rewrite norm_probe, norm_e00; lra].
  unfold confidence, similarity. rewrite norm_probe, norm_e00.
  cbn [probe e00 dot]. f_equal. field.
Qed.

Lemma candidate_one_face (m : string -> Picture) (s : Student.t) (e : t) :
  m (Student.face_image s) = one_face e ->
  candidate_confidence m probe s = compare probe e.
Proof.
  intros H. unfold candidate_confidence. rewrite H. reflexivity.
Qed.

Lemma track_take (tr : Tracker) (s : Student.t) (c : R) :
  c > highest_confidence tr -> track tr s (Some c) = mkTracker (Some s) c.
Proof. intros H. unfold track. apply Rgtb_true in H. rewrite H. reflexivity. Qed.

Lemma track_keep (tr : Tracker) (s : Student.t) (c : R) :
  c <= highest_confidence tr -> track tr s (Some c) = tr.
Proof. intros H. unfold track. apply Rgtb_false in H. rewrite H. reflexivity. Qed.

Lemma tracked_w_half :
  tracked (media w_half) probe (registered (students w_half)) initial_tracker
  = mkTracker (Some alice) (1 / 2).
Proof.
  change (registered (students w_half)) with [alice].
  rewrite tracked_cons.
  rewrite (candidate_one_face _ alice e50), compare_e50 by reflexivity.
  rewrite track_take by (cbn; lra). reflexivity.
Qed.

Lemma tracked_w_three :
  tracked (media w_three) probe (registered (students w_three)) initial_tracker
  = mkTracker (Some carol) (2 / 5).
Proof.
  change (registered (students w_three)) with [alice; bob; carol].
  rewrite tracked_cons, (bad_reference_skipped _ probe alice) by reflexivity.
  cbn [track].
  rewrite tracked_cons.
  rewrite (candidate_one_face _ bob e20), compare_e20 by reflexivity.
  rewrite track_take by (cbn; lra).
  rewrite tracked_cons.
  rewrite (candidate_one_face _ carol e40), compare_e40 by reflexivity.
  rewrite track_take by (cbn; lra). reflexivity.
Qed.

Lemma tracked_w_tie0 :
  tracked (media w_tie0) probe (registered (students w_tie0)) initial_tracker
  = initial_tracker.
Proof.
  change (registered (students w_tie0)) with [alice; bob].
  rewrite tracked_cons.
  rewrite (candidate_one_face _ alice e00), compare_e00 by reflexivity.
  rewrite track_keep by (cbn; lra).
  rewrite tracked_cons.
  rewrite (candidate_one_face _ bob e00), compare_e00 by reflexivity.
  rewrite track_keep by (cbn; lra). reflexivity.
Qed.

Lemma tracked_w_bad (q : t) :
  tracked (media w_bad) q (registered (students w_bad)) initial_tracker
  = initial_tracker.
Proof.
  change (registered (students w_bad)) with [alice; bob; carol].
  rewrite !tracked_cons.
  rewrite (bad_reference_skipped _ q alice), (bad_reference_skipped _ q bob),
    (bad_reference_skipped _ q carol) by reflexivity.
  reflexivity.
Qed.

Lemma reaches_scan_fixture (e : t) (thr : option R) :
  reaches_scan (request (one_face e) thr) (face e) [].
Proof. split; reflexivity. Qed.

End FixtureFacts.

(** Every request takes one of the six paths of the view. *)
Lemma recognize_cases (req : Request) (w : World) :
  recognize req w = (NoImageProvided, w) \/
  recognize req w = (NoRegisteredStudents, w) \/
  (exists e, recognize req w = (handler e, w)) \/
  (exists calls, recognize req w = (ErrorProcessingImage, with_calls w calls)) \/
  (registered (students w) <> [] /\ engine_init req = None /\
   image req = Some (Readable (Detected [])) /\
   recognize req w =
   (NoFaceDetected,
    create_log (with_calls w (engine_calls w ++ [mkCall temp_image_path true]))
      (RecognitionLog.mk None 0 false None))) \/
  (exists f fs,
     reaches_scan req f fs /\ registered (students w) <> [] /\
     recognize req w =
     decision req
       (with_calls w (engine_calls w ++ request_calls w))
       (tracked (media w) (embedding (max_det_score f fs))
          (registered (students w)) initial_tracker)).
Proof.
  destruct (image req) as [pic|] eqn:Himg.
  2: { left. unfold recognize. rewrite Himg. reflexivity. }
  assert (Hgal : registered (students w) = [] \/ registered (students w) <> []).
  { destruct (registered (students w)); [left; reflexivity | right; discriminate]. }
  destruct Hgal as [Hgal | Hne].
  { right; left. apply (recognize_no_gallery req w pic); assumption. }
  destruct (engine_init req) as [e|] eqn:Hinit.
  { right; right; left. exists e.
    apply (recognize_init_fails req w pic); assumption. }
  destruct pic as [|[e|[|f fs]]].
  - do 3 right; left. exists (engine_calls w).
    unfold recognize. rewrite Himg, Hinit.
    destruct (registered (students w)); [contradiction | reflexivity].
  - do 3 right; left. exists (engine_calls w ++ [mkCall temp_image_path false]).
    unfold recognize. rewrite Himg, Hinit.
    destruct (registered (students w)); [contradiction | reflexivity].
  - do 4 right; left.
    repeat split; try assumption.
    apply recognize_no_face; assumption.
  - do 5 right. exists f, fs.
    assert (Hr : reaches_scan req f fs) by (split; assumption).
    split; [exact Hr|]. split; [exact Hne|].
    apply recognize_scanned; assumption.
Qed.

(** ** The threshold decision *)

Lemma recognize_accepts (req : Request) (w : World) (f : Face) (fs : list Face) :
  reaches_scan req f fs -> registered (students w) <> [] ->
  let p := embedding (max_det_score f fs) in
  let gallery := registered (students w) in
  let best := best_confidence (media w) p gallery in
  0 < best -> best >= recognition_threshold req ->
  exists s, fst (recognize req w) = Recognized best s /\
            In s gallery /\
            candidate_confidence (media w) p s = Some best.
Proof.
  intros Hr Hgal p gallery best Hpos Hge.
  rewrite (recognize_scanned req w f fs Hr Hgal).
  pose proof (scan_ok (media w) p gallery) as Hok.
  pose proof (scan_highest (media w) p gallery) as Hh.
  fold p gallery. unfold decision, tracker_ok in *.
  destruct (best_match (tracked (media w) p gallery initial_tracker)) as [s|].
  - destruct Hok as (Hin & Hcc & _). fold best in Hh. rewrite Hh in *.
    apply Rgeb_true in Hge. rewrite Hge.
    exists s. cbn. auto.
  - fold best in Hh. lra.
Qed.

Lemma recognize_rejects (req : Request) (w : World) (f : Face) (fs : list Face) :
  reaches_scan req f fs -> registered (students w) <> [] ->
  let p := embedding (max_det_score f fs) in
  let gallery := registered (students w) in
  let best := best_confidence (media w) p gallery in
  best < recognition_threshold req \/ best = 0 ->
  fst (recognize req w) = NoMatchingStudent best.
Proof.
  intros Hr Hgal p gallery best Hlow.
  rewrite (recognize_scanned req w f fs Hr Hgal).
  pose proof (scan_ok (media w) p gallery) as Hok.
  pose proof (scan_highest (media w) p gallery) as Hh.
  fold p gallery. unfold decision, tracker_ok in *.
  destruct (best_match (tracked (media w) p gallery initial_tracker)) as [s|].
  - destruct Hok as (_ & _ & Hpos). fold best in Hh. rewrite Hh in *.
    destruct Hlow as [Hlt | Hz]; [|lra].
    apply Rgeb_false in Hlt. rewrite Hlt. reflexivity.
  - fold best in Hh. rewrite <- Hh, Hok. reflexivity.
Qed.

(** C1, as the code has it: for a request that reaches the loop over a
    non-empty gallery, a best confidence that is positive and at least
    the threshold (0.35 unless configured) gives ACCEPTED with the
    identity of a gallery entry that reached it and with that confidence;
    a best confidence below the threshold, or equal to 0, gives NO_MATCH
    carrying the best confidence.  Best 0.50 is accepted at threshold
    0.35 and rejected, with 0.50 reported, at threshold 0.60. *)
Theorem threshold_decision (req : Request) (w : World) (f : Face) (fs : list Face) :
  reaches_scan req f fs -> registered (students w) <> [] ->
  let p := embedding (max_det_score f fs) in
  let gallery := registered (students w) in
  let best := best_confidence (media w) p gallery in
  let thr := recognition_threshold req in
  (threshold_env req = None -> thr = 35 / 100) /\
  (0 < best -> best >= thr ->
   exists s, fst (recognize req w) = Recognized best s /\
             In s gallery /\
             candidate_confidence (media w) p s = Some best) /\
  (best < thr \/ best = 0 ->
   fst (recognize req w) = NoMatchingStudent best) /\
  (best = 1 / 2 -> thr = 35 / 100 ->
   exists s, fst (recognize req w) = Recognized (1 / 2) s) /\
  (best = 1 / 2 -> thr = 60 / 100 ->
   fst (recognize req w) = NoMatchingStudent (1 / 2)).
Proof.
  intros Hr Hgal p gallery best thr.
  pose proof (recognize_accepts req w f fs Hr Hgal) as Hacc.
  pose proof (recognize_rejects req w f fs Hr Hgal) as Hrej.
  cbn zeta in Hacc, Hrej. fold p gallery best thr in Hacc, Hrej.
  split; [intros Henv; unfold thr, recognition_threshold; rewrite Henv; reflexivity|].
  split; [exact Hacc|]. split; [exact Hrej|]. split.
  - intros Hb Ht. destruct Hacc as (s & Hs & _); [lra | lra |].
    exists s. rewrite Hs, Hb. reflexivity.
  - intros Hb Ht. rewrite Hrej by lra. rewrite Hb. reflexivity.
Qed.

(** ** The tie-break *)

(** C3, as the code has it: the selection is a function of the probe
    embedding and of the ordered gallery, whatever the state it runs in;
    the entry that first reaches the greatest confidence is the one
    selected, with that confidence, when that confidence is positive;
    and a step changes the tracker only on a strictly greater
    confidence. *)
Theorem first_maximum_is_selected (media : string -> Picture)
    (p : Embedding.t) (pre post : list Student.t) (s : Student.t) (m : R) :
  candidate_confidence media p s = Some m ->
  0 < m ->
  (forall x c, In x pre -> candidate_confidence media p x = Some c -> c < m) ->
  (forall x c, In x post -> candidate_confidence media p x = Some c -> c <= m) ->
  (forall calls,
     fst (scan media p (pre ++ s :: post) calls) = mkTracker (Some s) m) /\
  (forall tr calls x,
     fst (scan_step media p (tr, calls) x) <> tr ->
     highest_confidence (fst (scan_step media p (tr, calls) x))
     > highest_confidence tr).
Proof.
  intros Hs Hpos Hpre Hpost. split.
  - intros calls. rewrite scan_eq. cbn [fst].
    apply tracked_first_max; auto.
  - intros tr calls x. rewrite scan_step_fst. unfold track.
    destruct (candidate_confidence media p x) as [c|]; [|congruence].
    destruct (Rgtb c (highest_confidence tr)) eqn:E; [|congruence].
    intros _. apply Rgtb_true in E. exact E.
Qed.

(** ** Acceptance needs a positive confidence *)

(** C9: a response is ACCEPTED only if the request reached the loop and
    an entry of the gallery reached the confidence returned, which is
    positive and at least the threshold; and a request that reaches the
    loop with best confidence 0 is answered NO_MATCH with confidence 0,
    whatever the threshold. *)
Theorem accepted_needs_positive_confidence (req : Request) (w : World) :
  (forall c s,
     fst (recognize req w) = Recognized c s ->
     0 < c /\ c >= recognition_threshold req /\
     In s (registered (students w)) /\
     exists f fs,
       reaches_scan req f fs /\
       candidate_confidence (media w) (embedding (max_det_score f fs)) s
       = Some c) /\
  (forall f fs,
     reaches_scan req f fs -> registered (students w) <> [] ->
     best_confidence (media w) (embedding (max_det_score f fs))
       (registered (students w)) = 0 ->
     fst (recognize req w) = NoMatchingStudent 0).
Proof.
  split.
  - intros c s H.
    destruct (recognize_cases req w)
      as [E | [E | [[e E] | [[calls E] | [(_ & _ & _ & E) | (f & fs & Hr & Hgal & E)]]]]];
      rewrite E in H; cbn [fst] in H; try discriminate.
    + destruct e; discriminate.
    + pose proof (scan_ok (media w) (embedding (max_det_score f fs))
                    (registered (students w))) as Hok.
      unfold decision, tracker_ok in *.
      destruct (best_match _) as [s'|]; [|discriminate].
      destruct (Rgeb _ _) eqn:G; [|discriminate].
      cbn [fst] in H. injection H as Hc Hs'. subst s'.
      rewrite Hc in *. apply Rgeb_true in G.
      destruct Hok as (Hin & Hcc & Hpos).
      repeat split; auto. exists f, fs. auto.
  - intros f fs Hr Hgal Hbest.
    pose proof (recognize_rejects req w f fs Hr Hgal) as Hrej.
    cbn zeta in Hrej. rewrite Hbest in Hrej. apply Hrej. right. reflexivity.
Qed.

(** ** The rows written *)

Lemma decision_preserves (req : Request) (w' : World) (tr : Tracker) :
  students (snd (decision req w' tr)) = students w' /\
  media (snd (decision req w' tr)) = media w' /\
  engine_calls (snd (decision req w' tr)) = engine_calls w'.
Proof.
  unfold decision. destruct (best_match tr);
    [destruct (Rgeb _ _)|]; cbn; auto.
Qed.

(** The view never touches the students or their stored images. *)
Lemma recognize_preserves (req : Request) (w : World) :
  students (snd (recognize req w)) = students w /\
  media (snd (recognize req w)) = media w.
Proof.
  destruct (recognize_cases req w)
    as [E | [E | [[e E] | [[calls E] | [(_ & _ & _ & E) | (f & fs & _ & _ & E)]]]]];
    rewrite E; cbn; auto.
  destruct (decision_preserves req
              (with_calls w (engine_calls w ++ request_calls w))
              (tracked (media w) (embedding (max_det_score f fs))
                 (registered (students w)) initial_tracker)) as (H1 & H2 & _).
  rewrite H1, H2. cbn. auto.
Qed.

(** How many rows a request writes, by its outcome: one on ACCEPTED,
    NO_MATCH and NO_FACE, none on NO_GALLERY, RESOURCE_EXHAUSTED and
    ERROR. *)
Lemma rows_per_outcome (req : Request) (w : World) :
  recognition_logs (snd (recognize req w))
  = recognition_logs w ++ new_rows req w /\
  length (new_rows req w) =
  match outcome (fst (recognize req w)) with
  | ACCEPTED | NO_MATCH | NO_FACE => 1%nat
  | NO_GALLERY | RESOURCE_EXHAUSTED | ERROR => 0%nat
  end.
Proof.
  unfold new_rows.
  destruct (recognize_cases req w)
    as [E | [E | [[e E] | [[calls E] | [(_ & _ & _ & E) | (f & fs & _ & _ & E)]]]]];
    rewrite E; cbn [fst snd].
  - rewrite skipn_all. cbn. rewrite app_nil_r. auto.
  - rewrite skipn_all. cbn. rewrite app_nil_r. auto.
  - rewrite skipn_all. rewrite app_nil_r. destruct e; auto.
  - cbn. rewrite skipn_all. cbn. rewrite app_nil_r. auto.
  - cbn. rewrite skipn_app_length. auto.
  - destruct (decision_rows req
                (with_calls w (engine_calls w ++ request_calls w))
                (tracked (media w) (embedding (max_det_score f fs))
                   (registered (students w)) initial_tracker))
      as (row & Hrow & _).
    rewrite Hrow. cbn [recognition_logs with_calls].
    rewrite skipn_app_length. split; [reflexivity|].
    destruct (decision_outcome req
                (with_calls w (engine_calls w ++ request_calls w))
                (tracked (media w) (embedding (max_det_score f fs))
                   (registered (students w)) initial_tracker)) as [H | H];
      rewrite H; reflexivity.
Qed.

(** The row of a request that reaches the loop. *)
Lemma scanned_row (req : Request) (w : World) (f : Face) (fs : list Face) :
  reaches_scan req f fs -> registered (students w) <> [] ->
  exists row,
    new_rows req w = [row] /\
    RecognitionLog.processing_time row = Some (clock_end req - clock_start req) /\
    (RecognitionLog.success row = false -> RecognitionLog.student row = None) /\
    (RecognitionLog.success row = true <->
     outcome (fst (recognize req w)) = ACCEPTED).
Proof.
  intros Hr Hgal. unfold new_rows.
  rewrite (recognize_scanned req w f fs Hr Hgal).
  destruct (decision_rows req
              (with_calls w (engine_calls w ++ request_calls w))
              (tracked (media w) (embedding (max_det_score f fs))
                 (registered (students w)) initial_tracker))
    as (row & Hrow & Hpt & Hst & Hsucc).
  exists row. rewrite Hrow. cbn [recognition_logs with_calls].
  rewrite skipn_app_length. auto.
Qed.

(** The row of a request whose upload shows no face. *)
Lemma no_face_row (req : Request) (w : World) :
  image req = Some (Readable (Detected [])) ->
  registered (students w) <> [] -> engine_init req = None ->
  fst (recognize req w) = NoFaceDetected /\
  new_rows req w = [RecognitionLog.mk None 0 false None].
Proof.
  intros Himg Hgal Hinit. unfold new_rows.
  rewrite (recognize_no_face req w Himg Hgal Hinit). cbn.
  rewrite skipn_app_length. auto.
Qed.

(** C5, as the code has it: when at least one student has a registered
    face and the engine has been set up, an upload in which the engine
    finds no face is answered NO_FACE whatever the gallery holds, and
    exactly one row is written, with no student, confidence 0 and
    success false. *)
Theorem no_face_outcome (req : Request) (w : World) :
  image req = Some (Readable (Detected [])) ->
  engine_init req = None ->
  registered (students w) <> [] ->
  outcome (fst (recognize req w)) = NO_FACE /\
  recognition_logs (snd (recognize req w))
  = recognition_logs w ++ new_rows req w /\
  exists row,
    new_rows req w = [row] /\
    RecognitionLog.success row = false /\
    RecognitionLog.confidence row = 0 /\
    RecognitionLog.student row = None.
Proof.
  intros Himg Hinit Hgal.
  destruct (no_face_row req w Himg Hgal Hinit) as [Hresp Hrows].
  split; [rewrite Hresp; reflexivity|].
  split; [apply rows_per_outcome|].
  eexists. split; [exact Hrows|]. cbn. auto.
Qed.

(** C10: every row a request writes with success false has no student,
    also when the loop tracked a best candidate. *)
Theorem failed_rows_name_nobody (req : Request) (w : World)
    (row : RecognitionLog.t) :
  In row (new_rows req w) ->
  RecognitionLog.success row = false ->
  RecognitionLog.student row = None.
Proof.
  intros Hin Hfail. unfold new_rows in Hin.
  destruct (recognize_cases req w)
    as [E | [E | [[e E] | [[calls E] | [(Hgal & Hinit & Himg & E) | (f & fs & Hr & Hgal & E)]]]]].
  1-4: rewrite E in Hin; cbn [snd with_calls recognition_logs] in Hin;
       rewrite skipn_all in Hin; contradiction.
  - destruct (no_face_row req w Himg Hgal Hinit) as [_ Hrows].
    unfold new_rows in Hrows. rewrite Hrows in Hin.
    destruct Hin as [<- | []]. reflexivity.
  - destruct (scanned_row req w f fs Hr Hgal) as (row' & Hrows & _ & Hst & _).
    unfold new_rows in Hrows. rewrite Hrows in Hin.
    destruct Hin as [<- | []]. apply Hst, Hfail.
Qed.

(** ** Bad references *)

Lemma best_confidence_all_bad (media : string -> Picture) (p : Embedding.t)
    (l : list Student.t) :
  (forall s, In s l -> bad_reference (media (Student.face_image s)) = true) ->
  best_confidence media p l = 0.
Proof.
  induction l as [|s l IH]; intros H; [reflexivity|].
  cbn [best_confidence].
  rewrite bad_reference_skipped by (apply H; left; reflexivity).
  apply IH. intros x Hx. apply H. right. exact Hx.
Qed.

Lemma engine_calls_scanned (req : Request) (w : World) (f : Face) (fs : list Face) :
  reaches_scan req f fs -> registered (students w) <> [] ->
  engine_calls (snd (recognize req w)) = engine_calls w ++ request_calls w.
Proof.
  intros Hr Hgal. rewrite (recognize_scanned req w f fs Hr Hgal).
  destruct (decision_preserves req
              (with_calls w (engine_calls w ++ request_calls w))
              (tracked (media w) (embedding (max_det_score f fs))
                 (registered (students w)) initial_tracker)) as (_ & _ & H).
  rewrite H. reflexivity.
Qed.

(** C6: in a request that reaches the loop, a gallery entry whose
    reference is bad (corrupt file, engine failure, no face) leaves the
    selection as if the entry were not in the gallery, wherever it
    stands; the request is answered ACCEPTED or NO_MATCH, never with a
    request-level error; and a gallery of bad references only is answered
    NO_MATCH.  With a corrupt first entry and two entries scoring 0.20
    and 0.40, the best is 0.40, one entry is bad, and the engine returns
    on two gallery files. *)
Theorem bad_references_are_skipped (req : Request) (w : World)
    (f : Face) (fs : list Face) :
  reaches_scan req f fs -> registered (students w) <> [] ->
  let p := embedding (max_det_score f fs) in
  let gallery := registered (students w) in
  (forall pre s post calls,
     bad_reference (media w (Student.face_image s)) = true ->
     fst (scan (media w) p (pre ++ s :: post) calls)
     = fst (scan (media w) p (pre ++ post) calls)) /\
  (outcome (fst (recognize req w)) = ACCEPTED \/
   outcome (fst (recognize req w)) = NO_MATCH) /\
  ((forall s, In s gallery ->
              bad_reference (media w (Student.face_image s)) = true) ->
   outcome (fst (recognize req w)) = NO_MATCH) /\
  (let w3 := Fixture.w_three in
   let r3 := Fixture.request (Fixture.one_face Fixture.probe) None in
   let g3 := registered (students w3) in
   fst (scan (media w3) Fixture.probe g3 [])
   = mkTracker (Some Fixture.carol) (2 / 5) /\
   fst (recognize r3 w3) = Recognized (2 / 5) Fixture.carol /\
   length (filter (fun s => bad_reference (media w3 (Student.face_image s))) g3)
   = 1%nat /\
   successful_calls (gallery_calls (media w3) g3) = 2%nat /\
   engine_calls (snd (recognize r3 w3))
   = [mkCall temp_image_path true;
      mkCall (Student.face_image Fixture.bob) true;
      mkCall (Student.face_image Fixture.carol) true]).
Proof.
  intros Hr Hgal p gallery. split; [|split; [|split]].
  - intros pre s post calls Hbad. rewrite !scan_eq. cbn [fst].
    apply tracked_skip, bad_reference_skipped, Hbad.
  - rewrite (recognize_scanned req w f fs Hr Hgal). apply decision_outcome.
  - intros Hall.
    pose proof (recognize_rejects req w f fs Hr Hgal) as Hrej.
    cbn zeta in Hrej. rewrite Hrej; [reflexivity|].
    right. apply best_confidence_all_bad. exact Hall.
  - cbn zeta.
    assert (Hr3 : reaches_scan
                    (Fixture.request (Fixture.one_face Fixture.probe) None)
                    (Fixture.face Fixture.probe) [])
      by apply FixtureFacts.reaches_scan_fixture.
    assert (Hg3 : registered (students Fixture.w_three) <> [])
      by discriminate.
    split; [rewrite scan_eq; exact FixtureFacts.tracked_w_three|].
    split.
    { rewrite (recognize_scanned _ _ _ _ Hr3 Hg3).
      change (embedding (max_det_score (Fixture.face Fixture.probe) []))
        with Fixture.probe.
      rewrite FixtureFacts.tracked_w_three. unfold decision.
      cbn [best_match highest_confidence].
      assert (G : Rgeb (2 / 5)
                    (recognition_threshold
                       (Fixture.request (Fixture.one_face Fixture.probe) None))
                  = true).
      { apply Rgeb_true. unfold recognition_threshold. cbn. lra. }
      rewrite G. reflexivity. }
    split; [reflexivity|]. split; [reflexivity|].
    rewrite (engine_calls_scanned _ _ _ _ Hr3 Hg3). reflexivity.
Qed.

(** ** No embedding cache *)

(** C7, as the code has it: the view keeps no embedding cache.  Every
    request that reaches the loop calls the engine on the upload and then
    on each readable gallery image in scan order; two such requests
    against an unchanged gallery make the same gallery calls twice, and
    each entry reaches the same confidence against the same probe both
    times, the students and their stored images being left as they
    were. *)
Theorem every_request_rescans_gallery (req1 req2 : Request) (w : World)
    (f1 f2 : Face) (fs1 fs2 : list Face) :
  reaches_scan req1 f1 fs1 -> reaches_scan req2 f2 fs2 ->
  registered (students w) <> [] ->
  let w1 := snd (recognize req1 w) in
  let w2 := snd (recognize req2 w1) in
  students w2 = students w /\
  media w2 = media w /\
  engine_calls w1 = engine_calls w ++ request_calls w /\
  engine_calls w2 = engine_calls w ++ request_calls w ++ request_calls w /\
  (forall p s,
     candidate_confidence (media w1) p s = candidate_confidence (media w) p s).
Proof.
  intros Hr1 Hr2 Hgal w1 w2.
  destruct (recognize_preserves req1 w) as [Hs1 Hm1].
  destruct (recognize_preserves req2 w1) as [Hs2 Hm2].
  fold w1 in Hs1, Hm1. fold w2 in Hs2, Hm2.
  assert (Hgal1 : registered (students w1) <> []) by (rewrite Hs1; exact Hgal).
  pose proof (engine_calls_scanned req1 w f1 fs1 Hr1 Hgal) as Hc1.
  pose proof (engine_calls_scanned req2 w1 f2 fs2 Hr2 Hgal1) as Hc2.
  fold w1 in Hc1, Hc2. fold w2 in Hc2.
  split; [congruence|]. split; [congruence|]. split; [exact Hc1|].
  split.
  - rewrite Hc2, Hc1. unfold request_calls. rewrite Hs1, Hm1.
    rewrite <- app_assoc. reflexivity.
  - intros p s. rewrite Hm1. reflexivity.
Qed.

Lemma engine_calls_twice (req1 req2 : Request) (w : World)
    (f1 f2 : Face) (fs1 fs2 : list Face) :
  reaches_scan req1 f1 fs1 -> reaches_scan req2 f2 fs2 ->
  registered (students w) <> [] ->
  engine_calls (snd (recognize req2 (snd (recognize req1 w))))
  = engine_calls w ++ request_calls w ++ request_calls w.
Proof.
  intros Hr1 Hr2 Hgal.
  destruct (recognize_preserves req1 w) as [Hs1 Hm1].
  rewrite (engine_calls_scanned req2 _ f2 fs2 Hr2) by (rewrite Hs1; exact Hgal).
  rewrite (engine_calls_scanned req1 w f1 fs1 Hr1 Hgal).
  unfold request_calls. rewrite Hs1, Hm1, <- app_assoc. reflexivity.
Qed.

(** ** The examples, run through the view *)

Module Examples.
Import Fixture FixtureFacts.

Lemma gallery_w_half : registered (students w_half) <> [].
Proof. discriminate. Qed.

Lemma recognize_w_half (thr : option R) :
  recognize (request (one_face probe) thr) w_half
  = decision (request (one_face probe) thr)
      (with_calls w_half (request_calls w_half))
      (mkTracker (Some alice) (1 / 2)).
Proof.
  rewrite (recognize_scanned _ _ _ _ (reaches_scan_fixture probe thr)
             gallery_w_half).
  change (embedding (max_det_score (face probe) [])) with probe.
  rewrite tracked_w_half. reflexivity.
Qed.

Lemma accepted_w_half :
  fst (recognize (request (one_face probe) None) w_half)
  = Recognized (1 / 2) alice.
Proof.
  rewrite recognize_w_half. unfold decision.
  cbn [best_match highest_confidence].
  assert (G : Rgeb (1 / 2)
                (recognition_threshold (request (one_face probe) None)) = true).
  { apply Rgeb_true. unfold recognition_threshold. cbn. lra. }
  rewrite G. reflexivity.
Qed.

Lemma rejected_w_half :
  recognize (request (one_face probe) (Some (60 / 100))) w_half
  = (NoMatchingStudent (1 / 2),
     create_log (with_calls w_half (request_calls w_half))
       (RecognitionLog.mk None (1 / 2) false (Some (103 - 100)))).
Proof.
  rewrite recognize_w_half. unfold decision.
  cbn [best_match highest_confidence].
  assert (G : Rgeb (1 / 2)
                (recognition_threshold
                   (request (one_face probe) (Some (60 / 100)))) = false).
  { apply Rgeb_false. unfold recognition_threshold. cbn. lra. }
  rewrite G. reflexivity.
Qed.

Lemma best_w_half :
  best_confidence (media w_half) probe (registered (students w_half)) = 1 / 2.
Proof. rewrite <- scan_highest, tracked_w_half. reflexivity. Qed.

Lemma best_w_bad :
  best_confidence (media w_bad) probe (registered (students w_bad)) = 0.
Proof. rewrite <- scan_highest, tracked_w_bad. reflexivity. Qed.

(** C1 as stated fails: with the threshold configured to 0 and a gallery
    of bad references, the best confidence, 0, is at least the threshold
    and the request is not accepted. *)
Lemma threshold_zero_rejects :
  reaches_scan (request (one_face probe) (Some 0)) (face probe) [] /\
  registered (students w_bad) <> [] /\
  best_confidence (media w_bad) probe (registered (students w_bad))
  >= recognition_threshold (request (one_face probe) (Some 0)) /\
  outcome (fst (recognize (request (one_face probe) (Some 0)) w_bad))
  <> ACCEPTED.
Proof.
  assert (Hg : registered (students w_bad) <> []) by discriminate.
  split; [apply reaches_scan_fixture|]. split; [exact Hg|]. split.
  - rewrite best_w_bad. unfold recognition_threshold. cbn. lra.
  - rewrite (recognize_scanned _ _ _ _ (reaches_scan_fixture probe (Some 0)) Hg).
    rewrite tracked_w_bad. cbn. discriminate.
Qed.

Lemma threshold_decision_witness :
  exists s,
    fst (recognize (request (one_face probe) None) w_half)
    = Recognized (1 / 2) s.
Proof.
  destruct (threshold_decision (request (one_face probe) None) w_half
              (face probe) [] (reaches_scan_fixture probe None) gallery_w_half)
    as (Hthr & _ & _ & Hhalf & _).
  apply Hhalf; [exact best_w_half | apply Hthr; reflexivity].
Defined.

Lemma candidates_w_tie :
  candidate_confidence (media w_tie) probe alice = Some (1 / 2) /\
  candidate_confidence (media w_tie) probe bob = Some (1 / 2) /\
  candidate_confidence (media w_tie) probe carol = Some (1 / 5).
Proof.
  rewrite (candidate_one_face _ alice e50), (candidate_one_face _ bob e50),
    (candidate_one_face _ carol e20) by reflexivity.
  rewrite compare_e50, compare_e20. auto.
Qed.

Lemma first_maximum_is_selected_witness :
  fst (scan (media w_tie) probe ([] ++ alice :: [bob; carol]) [])
  = mkTracker (Some alice) (1 / 2).
Proof.
  destruct candidates_w_tie as (Ha & Hb & Hc).
  apply (first_maximum_is_selected (media w_tie) probe [] [bob; carol]
           alice (1 / 2)).
  - exact Ha.
  - lra.
  - intros x c [].
  - intros x c [<- | [<- | []]] Hx.
    + rewrite Hb in Hx. injection Hx as <-. lra.
    + rewrite Hc in Hx. injection Hx as <-. lra.
Defined.

(** C3 as stated fails: two entries tied at the greatest confidence, 0,
    and the earlier one is not selected. *)
Lemma tie_at_zero_selects_nobody :
  ~ (forall media p pre s post m,
       candidate_confidence media p s = Some m ->
       (forall x c, In x pre -> candidate_confidence media p x = Some c -> c < m) ->
       (forall x c, In x post -> candidate_confidence media p x = Some c -> c <= m) ->
       forall calls,
         best_match (fst (scan media p (pre ++ s :: post) calls)) = Some s).
Proof.
  intros H.
  assert (Ha : candidate_confidence (media w_tie0) probe alice = Some 0).
  { rewrite (candidate_one_face _ alice e00) by reflexivity. exact compare_e00. }
  assert (Hb : candidate_confidence (media w_tie0) probe bob = Some 0).
  { rewrite (candidate_one_face _ bob e00) by reflexivity. exact compare_e00. }
  specialize (H (media w_tie0) probe [] alice [bob] 0 Ha).
  assert (Hsel : best_match (fst (scan (media w_tie0) probe ([] ++ [alice; bob]) []))
                 = Some alice).
  { apply H.
    - intros x c [].
    - intros x c [<- | []] Hx. rewrite Hb in Hx. injection Hx as <-. lra. }
  rewrite scan_eq in Hsel. cbn [fst app] in Hsel.
  change [alice; bob] with (registered (students w_tie0)) in Hsel.
  rewrite tracked_w_tie0 in Hsel. discriminate.
Qed.

Lemma gallery_w_empty : registered (students w_empty) = [].
Proof. reflexivity. Qed.

(** C4 fails on the code: a request against a gallery with no registered
    face is answered NO_GALLERY, one whose engine cannot be set up for
    lack of memory RESOURCE_EXHAUSTED, and one whose upload cannot be
    read ERROR, and none of the three writes a row. *)
Theorem no_row_without_decision :
  (outcome (fst (recognize (request (one_face probe) None) w_empty))
   = NO_GALLERY /\
   new_rows (request (one_face probe) None) w_empty = []) /\
  (let req := mkRequest (Some (one_face probe)) None
                (Some OtherException) (Some MemoryError) 100 103 in
   outcome (fst (recognize req w_half)) = RESOURCE_EXHAUSTED /\
   new_rows req w_half = []) /\
  (outcome (fst (recognize (request Unreadable None) w_half)) = ERROR /\
   new_rows (request Unreadable None) w_half = []).
Proof.
  split; [|split].
  - rewrite (recognize_no_gallery _ w_empty (one_face probe))
      by reflexivity.
    split; reflexivity.
  - cbn zeta. unfold new_rows.
    rewrite (recognize_init_fails _ w_half (one_face probe) MemoryError)
      by (reflexivity || exact gallery_w_half).
    split; reflexivity.
  - split; reflexivity.
Qed.

(** C5 as stated fails: with no registered face in the gallery, an upload
    in which no face is found is answered NO_GALLERY, not NO_FACE, and no
    row is written. *)
Lemma no_face_on_empty_gallery :
  image (request no_face None) = Some (Readable (Detected [])) /\
  outcome (fst (recognize (request no_face None) w_empty)) <> NO_FACE /\
  new_rows (request no_face None) w_empty = [].
Proof.
  rewrite (recognize_no_gallery _ w_empty no_face) by reflexivity.
  split; [reflexivity|]. split; [discriminate | reflexivity].
Qed.

Lemma no_face_outcome_witness :
  outcome (fst (recognize (request no_face None) w_tie)) = NO_FACE /\
  recognition_logs (snd (recognize (request no_face None) w_tie))
  = recognition_logs w_tie ++ new_rows (request no_face None) w_tie /\
  exists row,
    new_rows (request no_face None) w_tie = [row] /\
    RecognitionLog.success row = false /\
    RecognitionLog.confidence row = 0 /\
    RecognitionLog.student row = None.
Proof.
  apply (no_face_outcome (request no_face None) w_tie);
    [reflexivity | reflexivity | discriminate].
Defined.

Lemma bad_references_are_skipped_witness :
  outcome (fst (recognize (request (one_face probe) None) w_bad)) = NO_MATCH.
Proof.
  assert (Hg : registered (students w_bad) <> []) by discriminate.
  destruct (bad_references_are_skipped (request (one_face probe) None) w_bad
              (face probe) [] (reaches_scan_fixture probe None) Hg)
    as (_ & _ & Hall & _).
  apply Hall. intros s [<- | [<- | [<- | []]]]; reflexivity.
Defined.

(** C7 as stated fails: two requests against the same one-entry gallery
    call the engine twice on that entry's image. *)
Lemma second_request_calls_engine_again :
  ~ (calls_on (Student.face_image alice)
       (engine_calls
          (snd (recognize (request (one_face probe) None)
                  (snd (recognize (request (one_face probe) None) w_half)))))
     <= 1)%nat.
Proof.
  rewrite (engine_calls_twice _ _ w_half _ _ _ _
             (reaches_scan_fixture probe None)
             (reaches_scan_fixture probe None) gallery_w_half).
  cbn. lia.
Qed.

Lemma every_request_rescans_gallery_witness :
  engine_calls
    (snd (recognize (request (one_face probe) None)
            (snd (recognize (request (one_face probe) None) w_half))))
  = engine_calls w_half ++ request_calls w_half ++ request_calls w_half.
Proof.
  destruct (every_request_rescans_gallery
              (request (one_face probe) None) (request (one_face probe) None)
              w_half (face probe) (face probe) [] []
              (reaches_scan_fixture probe None)
              (reaches_scan_fixture probe None) gallery_w_half)
    as (_ & _ & _ & H & _).
  exact H.
Defined.

(** C8 fails on the code: an upload in which no face is found, against a
    gallery with a registered face, is answered NO_FACE and its row has
    no processing time. *)
Theorem no_face_row_lacks_processing_time :
  outcome (fst (recognize (request no_face None) w_half)) = NO_FACE /\
  exists row,
    new_rows (request no_face None) w_half = [row] /\
    RecognitionLog.processing_time row = None.
Proof.
  destruct (no_face_row (request no_face None) w_half)
    as [Hresp Hrows]; [reflexivity | exact gallery_w_half | reflexivity |].
  split; [rewrite Hresp; reflexivity|].
  eexists. split; [exact Hrows | reflexivity].
Qed.

Lemma accepted_needs_positive_confidence_witness :
  0 < 1 / 2 /\
  1 / 2 >= recognition_threshold (request (one_face probe) None) /\
  In alice (registered (students w_half)) /\
  exists f fs,
    reaches_scan (request (one_face probe) None) f fs /\
    candidate_confidence (media w_half) (embedding (max_det_score f fs)) alice
    = Some (1 / 2).
Proof.
  destruct (accepted_needs_positive_confidence
              (request (one_face probe) None) w_half) as [Hacc _].
  exact (Hacc (1 / 2) alice accepted_w_half).
Defined.

Lemma failed_rows_name_nobody_witness :
  best_match
    (tracked (media w_half) probe (registered (students w_half))
       initial_tracker) = Some alice /\
  new_rows (request (one_face probe) (Some (60 / 100))) w_half
  = [RecognitionLog.mk None (1 / 2) false (Some (103 - 100))] /\
  RecognitionLog.student
    (RecognitionLog.mk None (1 / 2) false (Some (103 - 100))) = None.
Proof.
  assert (Hrows : new_rows (request (one_face probe) (Some (60 / 100))) w_half
                  = [RecognitionLog.mk None (1 / 2) false (Some (103 - 100))]).
  { unfold new_rows. rewrite rejected_w_half. reflexivity. }
  split; [rewrite tracked_w_half; reflexivity|]. split; [exact Hrows|].
  apply (failed_rows_name_nobody
           (request (one_face probe) (Some (60 / 100))) w_half).
  - rewrite Hrows. left. reflexivity.
  - reflexivity.
Defined.

End Examples.

(** * Further properties *)

(** ** The confidence as a function of the two embeddings *)

Module EmbeddingAlgebra.
Import Embedding EmbeddingFacts.

Lemma dot_comm (u v : t) : dot u v = dot v u.
Proof.
  revert v; induction u as [|a u IH]; intros [|b v]; cbn; try reflexivity.
  rewrite IH. ring.
Qed.

Lemma compare_sym (p c : t) : compare p c = compare c p.
Proof.
  unfold compare. rewrite (Nat.eqb_sym (length p)).
  destruct (Nat.eqb (length c) (length p)); [|reflexivity].
  destruct (Req_dec_T (norm p * norm c) 0) as [H | H];
    destruct (Req_dec_T (norm c * norm p) 0) as [H' | H'];
    try reflexivity; try (exfalso; lra).
  unfold confidence, similarity.
  rewrite (dot_comm p c), (Rmult_comm (norm p)). reflexivity.
Qed.

(** The confidence does not depend on which of the two embeddings is the
    probe: the pairs that yield no number are the same both ways, and so
    is the number. *)
Theorem confidence_is_symmetric (p c : t) : compare p c = compare c p.
Proof. apply compare_sym. Qed.

End EmbeddingAlgebra.

(** ** The face selected among several *)

Lemma max_det_score_gen (fs done_pre done_post : list Face) (best : Face) :
  (forall x, In x done_pre -> det_score x < det_score best) ->
  (forall x, In x done_post -> det_score x <= det_score best) ->
  exists pre post,
    done_pre ++ best :: done_post ++ fs
    = pre ++ max_det_score best fs :: post /\
    (forall x, In x pre -> det_score x < det_score (max_det_score best fs)) /\
    (forall x, In x post -> det_score x <= det_score (max_det_score best fs)).
Proof.
  revert done_pre done_post best.
  induction fs as [|x fs IH]; intros done_pre done_post best Hpre Hpost.
  - exists done_pre, done_post. rewrite app_nil_r. auto.
  - change (max_det_score best (x :: fs))
      with (max_det_score
              (if Rgtb (det_score x) (det_score best) then x else best) fs).
    destruct (Rgtb (det_score x) (det_score best)) eqn:G.
    + apply Rgtb_true in G.
      destruct (IH (done_pre ++ best :: done_post) [] x) as (pre & post & E & H1 & H2).
      * intros y Hy. apply in_app_or in Hy.
        destruct Hy as [Hy | [<- | Hy]];
          [specialize (Hpre y Hy) | | specialize (Hpost y Hy)]; lra.
      * intros y [].
      * exists pre, post. split; [|auto].
        rewrite <- E. rewrite <- app_assoc. reflexivity.
    + apply Rgtb_false in G.
      destruct (IH done_pre (done_post ++ [x]) best) as (pre & post & E & H1 & H2).
      * exact Hpre.
      * intros y Hy. apply in_app_or in Hy.
        destruct Hy as [Hy | [<- | []]]; [apply Hpost; exact Hy | exact G].
      * exists pre, post. split; [|auto].
        rewrite <- E. rewrite <- app_assoc. reflexivity.
Qed.

(** [max(faces, key=det_score)] gives a face of the list whose detection
    score no other face exceeds, and the first of those in the list. *)
Theorem max_det_score_first_greatest (f : Face) (fs : list Face) :
  exists pre post,
    f :: fs = pre ++ max_det_score f fs :: post /\
    (forall x, In x pre -> det_score x < det_score (max_det_score f fs)) /\
    (forall x, In x post -> det_score x <= det_score (max_det_score f fs)).
Proof.
  destruct (max_det_score_gen fs [] [] f) as (pre & post & E & H);
    [intros x [] | intros x [] |].
  exists pre, post. split; [exact E | exact H].
Qed.

(** ** What a response and its row carry *)

Lemma new_rows_eq (req : Request) (w : World) :
  new_rows req w = row_of req (fst (recognize req w)).
Proof.
  unfold new_rows.
  destruct (recognize_cases req w)
    as [E | [E | [[e E] | [[calls E] | [(_ & _ & _ & E) | (f & fs & _ & _ & E)]]]]];
    rewrite E; cbn [fst snd].
  - apply skipn_all.
  - apply skipn_all.
  - destruct e; apply skipn_all.
  - cbn. apply skipn_all.
  - cbn. apply skipn_app_length.
  - unfold decision.
    destruct (best_match _) as [s|];
      [destruct (Rgeb _ _)|]; cbn; apply skipn_app_length.
Qed.

(** The row written is the one of the response: the student and the
    confidence returned on ACCEPTED, no student and the confidence
    returned on NO_MATCH, no student and 0 on NO_FACE, and no row
    otherwise. *)
Theorem row_matches_response (req : Request) (w : World) :
  new_rows req w = row_of req (fst (recognize req w)).
Proof. apply new_rows_eq. Qed.


(** ** The threshold and the order of the gallery *)

Lemma recognize_error_processing (req : Request) (w : World) (pic : Picture) :
  image req = Some pic -> registered (students w) <> [] ->
  engine_init req = None ->
  pic = Unreadable \/ (exists e, pic = Readable (EngineRaises e)) ->
  fst (recognize req w) = ErrorProcessingImage.
Proof.
  intros Himg Hgal Hinit Hpic. unfold recognize. rewrite Himg, Hinit.
  destruct (registered (students w)); [contradiction|].
  destruct Hpic as [-> | [e ->]]; reflexivity.
Qed.

(** The response of a request that reaches the loop, from the best
    confidence alone. *)
Lemma scanned_response (req : Request) (w : World) (f : Face) (fs : list Face) :
  reaches_scan req f fs -> registered (students w) <> [] ->
  let best := best_confidence (media w) (embedding (max_det_score f fs))
                (registered (students w)) in
  (0 < best /\ best >= recognition_threshold req /\
   exists s, fst (recognize req w) = Recognized best s) \/
  (~ (0 < best /\ best >= recognition_threshold req) /\
   fst (recognize req w) = NoMatchingStudent best).
Proof.
  intros Hr Hgal best.
  pose proof (best_confidence_nonneg (media w) (embedding (max_det_score f fs))
                (registered (students w))) as Hnn. fold best in Hnn.
  destruct (Rlt_dec 0 best) as [Hpos | Hz].
  - destruct (Rge_dec best (recognition_threshold req)) as [Hge | Hlt].
    + left. split; [exact Hpos|]. split; [exact Hge|].
      destruct (recognize_accepts req w f fs Hr Hgal Hpos Hge) as (s & Hs & _).
      exists s. exact Hs.
    + right. split; [tauto|].
      apply (recognize_rejects req w f fs Hr Hgal). left.
      unfold best in *. lra.
  - right. split; [tauto|].
    apply (recognize_rejects req w f fs Hr Hgal). right.
    unfold best in *. lra.
Qed.

(** A request accepted under one threshold is answered and recorded the
    same way under any lower threshold. *)
Theorem lower_threshold_keeps_acceptance (req : Request) (w : World) (thr : R) :
  thr <= recognition_threshold req ->
  outcome (fst (recognize req w)) = ACCEPTED ->
  recognize (with_threshold req thr) w = recognize req w.
Proof.
  intros Hthr Hacc.
  destruct (recognize_cases req w)
    as [E | [E | [[e E] | [[calls E] | [(_ & _ & _ & E) | (f & fs & Hr & Hgal & E)]]]]];
    try (rewrite E in Hacc; cbn in Hacc; try destruct e; discriminate).
  assert (Hr' : reaches_scan (with_threshold req thr) f fs)
    by (destruct Hr; split; assumption).
  rewrite E, (recognize_scanned _ w f fs Hr' Hgal).
  rewrite E in Hacc. unfold decision in *.
  destruct (best_match _) as [s|]; [|discriminate].
  destruct (Rgeb _ (recognition_threshold req)) eqn:G; [|discriminate].
  apply Rgeb_true in G.
  assert (G' : Rgeb (highest_confidence
                       (tracked (media w) (embedding (max_det_score f fs))
                          (registered (students w)) initial_tracker))
                 (recognition_threshold (with_threshold req thr)) = true).
  { apply Rgeb_true. unfold recognition_threshold at 1. cbn. lra. }
  rewrite G'. reflexivity.
Qed.

Lemma registered_perm (sts sts' : list Student.t) :
  Permutation sts sts' -> Permutation (registered sts) (registered sts').
Proof.
  unfold registered. induction 1 as [|x l l' _ IH|x y l|l l' l'' _ IH1 _ IH2].
  - constructor.
  - cbn. destruct (negb _); [constructor|]; exact IH.
  - cbn. destruct (negb _), (negb _); try apply Permutation_refl.
    apply perm_swap.
  - eapply Permutation_trans; eassumption.
Qed.

Lemma best_confidence_perm (media : string -> Picture) (p : Embedding.t)
    (l l' : list Student.t) :
  Permutation l l' -> best_confidence media p l = best_confidence media p l'.
Proof.
  induction 1 as [|x l l' _ IH|x y l|l l' l'' _ IH1 _ IH2].
  - reflexivity.
  - cbn. rewrite IH. reflexivity.
  - cbn. destruct (candidate_confidence media p x),
           (candidate_confidence media p y); try reflexivity.
    rewrite !Rmax_assoc, (Rmax_comm r0 r). reflexivity.
  - congruence.
Qed.

(** The order in which the students are scanned changes neither the
    outcome nor the confidence returned; only which of several students
    tied at the best confidence is named can depend on it. *)
Theorem gallery_order_keeps_outcome (req : Request) (w : World)
    (sts' : list Student.t) :
  Permutation (students w) sts' ->
  let w' := mkWorld sts' (media w) (recognition_logs w) (engine_calls w) in
  outcome (fst (recognize req w')) = outcome (fst (recognize req w)) /\
  response_confidence (fst (recognize req w'))
  = response_confidence (fst (recognize req w)).
Proof.
  intros Hperm w'.
  pose proof (registered_perm _ _ Hperm) as Hreg.
  change sts' with (students w') in Hreg.
  destruct (image req) as [pic|] eqn:Himg.
  2: { unfold recognize. rewrite Himg. auto. }
  assert (Hgal : registered (students w) = [] \/ registered (students w) <> []).
  { destruct (registered (students w)); [left; reflexivity | right; discriminate]. }
  destruct Hgal as [Hgal | Hgal].
  { assert (Hgal' : registered (students w') = []).
    { rewrite Hgal in Hreg. apply Permutation_nil. exact Hreg. }
    rewrite (recognize_no_gallery req w pic), (recognize_no_gallery req w' pic)
      by assumption. auto. }
  assert (Hgal' : registered (students w') <> []).
  { intros E. rewrite E in Hreg. apply Permutation_sym, Permutation_nil in Hreg.
    contradiction. }
  destruct (engine_init req) as [e|] eqn:Hinit.
  { rewrite (recognize_init_fails req w pic e), (recognize_init_fails req w' pic e)
      by assumption. auto. }
  destruct pic as [|[e|[|f fs]]].
  - rewrite (recognize_error_processing req w Unreadable),
      (recognize_error_processing req w' Unreadable) by auto. auto.
  - rewrite (recognize_error_processing req w (Readable (EngineRaises e))),
      (recognize_error_processing req w' (Readable (EngineRaises e))) by eauto.
    auto.
  - rewrite (recognize_no_face req w), (recognize_no_face req w') by assumption.
    auto.
  - assert (Hr : reaches_scan req f fs) by (split; assumption).
    pose proof (best_confidence_perm (media w) (embedding (max_det_score f fs))
                  _ _ Hreg) as Hbest.
    destruct (scanned_response req w f fs Hr Hgal)
      as [(H1 & H2 & s & E) | (Hn & E)];
      destruct (scanned_response req w' f fs Hr Hgal')
        as [(H1' & H2' & s' & E') | (Hn' & E')];
      cbn zeta in *; change (media w') with (media w) in *;
      rewrite <- Hbest in *; try tauto;
      rewrite E, E'; cbn; auto.
Qed.

(** ** The cost of a request and the log over many requests *)

Lemma gallery_calls_length (media : string -> Picture) (l : list Student.t) :
  (length (gallery_calls media l) <= length l)%nat.
Proof.
  induction l as [|s l IH]; [apply Nat.le_refl|].
  unfold gallery_calls in *. cbn [flat_map]. rewrite length_app.
  destruct (media (Student.face_image s)) as [|[e|fs]]; cbn; lia.
Qed.

(** A request calls the engine at most once on the upload and once per
    registered student, and not at all when nobody is registered; the
    calls already logged stay. *)
Theorem engine_calls_bounded (req : Request) (w : World) :
  exists new,
    engine_calls (snd (recognize req w)) = engine_calls w ++ new /\
    (length new <=
     match registered (students w) with
     | [] => 0
     | _ :: _ => 1 + length (registered (students w))
     end)%nat.
Proof.
  destruct (image req) as [pic|] eqn:Himg.
  2: { exists []. unfold recognize. rewrite Himg, app_nil_r.
       split; [reflexivity|]. destruct (registered (students w)); cbn; lia. }
  assert (Hgal : registered (students w) = [] \/ registered (students w) <> []).
  { destruct (registered (students w)); [left; reflexivity | right; discriminate]. }
  destruct Hgal as [Hgal | Hgal].
  { exists []. rewrite (recognize_no_gallery req w pic Himg Hgal), app_nil_r.
    split; [reflexivity|]. rewrite Hgal. cbn. lia. }
  assert (Hbound : forall new : list EngineCall,
             (length new <= 1 + length (registered (students w)))%nat ->
             (length new <=
              match registered (students w) with
              | [] => 0
              | _ :: _ => 1 + length (registered (students w))
              end)%nat).
  { intros new H. destruct (registered (students w)); [contradiction | exact H]. }
  destruct (engine_init req) as [e|] eqn:Hinit.
  { exists []. rewrite (recognize_init_fails req w pic e Himg Hgal Hinit), app_nil_r.
    split; [reflexivity|]. apply Hbound. cbn. lia. }
  destruct pic as [|[e|[|f fs]]].
  - exists []. split; [|apply Hbound; cbn; lia].
    unfold recognize. rewrite Himg, Hinit, app_nil_r.
    destruct (registered (students w)); [contradiction | reflexivity].
  - exists [mkCall temp_image_path false]. split; [|apply Hbound; cbn; lia].
    unfold recognize. rewrite Himg, Hinit.
    destruct (registered (students w)); [contradiction | reflexivity].
  - exists [mkCall temp_image_path true]. split; [|apply Hbound; cbn; lia].
    rewrite (recognize_no_face req w Himg Hgal Hinit). reflexivity.
  - assert (Hr : reaches_scan req f fs) by (split; assumption).
    exists (request_calls w).
    rewrite (engine_calls_scanned req w f fs Hr Hgal). split; [reflexivity|].
    apply Hbound.
    pose proof (gallery_calls_length (media w) (registered (students w))).
    unfold request_calls. cbn [length]. lia.
Qed.

(** Over any sequence of requests the log only grows, by at most one row
    per request, and the students and their stored images stay as they
    were. *)
Theorem log_is_append_only (reqs : list Request) (w : World) :
  exists rows,
    recognition_logs (serve reqs w) = recognition_logs w ++ rows /\
    (length rows <= length reqs)%nat /\
    students (serve reqs w) = students w /\
    media (serve reqs w) = media w.
Proof.
  revert w. induction reqs as [|req reqs IH]; intros w.
  - exists []. cbn. rewrite app_nil_r. auto.
  - cbn [serve fold_left]. fold (serve reqs (snd (recognize req w))).
    destruct (IH (snd (recognize req w))) as (rows & Hrows & Hlen & Hs & Hm).
    destruct (rows_per_outcome req w) as [Hnew Hone].
    destruct (recognize_preserves req w) as [Hs1 Hm1].
    exists (new_rows req w ++ rows).
    rewrite Hrows, Hnew, <- app_assoc. split; [reflexivity|].
    split; [|split; congruence].
    rewrite length_app. cbn [length].
    destruct (outcome (fst (recognize req w))); lia.
Qed.

(** ** The dashboard counters after a request *)

(** A request adds one to the count of failed attempts exactly when it
    is answered NO_FACE or NO_MATCH, and never changes the count of
    students. *)
Theorem failed_attempts_after_recognize (req : Request) (w : World) :
  failed_attempts (snd (recognize req w))
  = (failed_attempts w +
     match outcome (fst (recognize req w)) with
     | NO_FACE | NO_MATCH => 1
     | ACCEPTED | NO_GALLERY | RESOURCE_EXHAUSTED | ERROR => 0
     end)%nat /\
  total_students (snd (recognize req w)) = total_students w.
Proof.
  split.
  - unfold failed_attempts.
    destruct (rows_per_outcome req w) as [Hnew _].
    rewrite Hnew, new_rows_eq, filter_app, length_app.
    f_equal. destruct (fst (recognize req w)); reflexivity.
  - unfold total_students.
    destruct (recognize_preserves req w) as [Hs _]. rewrite Hs. reflexivity.
Qed.

(** ** Registering a face *)

Lemma get_student_some (sid : nat) (sts : list Student.t) (s : Student.t) :
  get_student sid sts = Some s -> In s sts /\ Student.id s = sid.
Proof.
  intros H. apply find_some in H. destruct H as [Hin Hid].
  apply Nat.eqb_eq in Hid. auto.
Qed.

Lemma get_student_known (sid : nat) (sts : list Student.t) :
  In sid (map Student.id sts) <-> exists s, get_student sid sts = Some s.
Proof.
  split.
  - intros Hin. apply in_map_iff in Hin. destruct Hin as (s & Hid & Hs).
    destruct (get_student sid sts) as [s'|] eqn:E; [eauto|].
    unfold get_student in E.
    pose proof (find_none _ _ E s Hs) as Hn. cbn in Hn.
    rewrite Hid, Nat.eqb_refl in Hn. discriminate.
  - intros [s Hs]. apply get_student_some in Hs. destruct Hs as [Hin Hid].
    apply in_map_iff. eauto.
Qed.

Lemma save_face_image_ids (sid : nat) (path : string) (sts : list Student.t) :
  map Student.id (save_face_image sid path sts) = map Student.id sts.
Proof.
  unfold save_face_image. rewrite map_map. apply map_ext.
  intros s. destruct (Nat.eqb (Student.id s) sid); reflexivity.
Qed.


(** What a successful registration leaves. *)
Lemma register_face_success (reg : Registration.t) (w : World)
    (sid : nat) (up : Upload) :
  validated reg = Some (sid, up) ->
  fst (register_face reg w) = FaceRegistered ->
  (exists s, get_student sid (students w) = Some s) /\
  snd (register_face reg w)
  = mkWorld
      (save_face_image sid (upload_to ++ Registration.file_name reg)%string
         (students w))
      (store (upload_to ++ Registration.file_name reg)%string
         (as_stored up) (media w))
      (recognition_logs w)
      (engine_calls w ++ [mkCall temp_register_path true]).
Proof.
  intros Hval. unfold register_face. rewrite Hval.
  destruct (get_student sid (students w)) as [s|]; [|discriminate].
  destruct (Registration.engine_init reg); [discriminate|].
  destruct (as_read up) as [ex|[|f fs]]; try discriminate.
  intros _. split; [eauto | reflexivity].
Qed.

(** A registration never touches the recognition log or the dashboard
    counters, keeps the students' identifiers, and leaves the students
    and the stored images as they were unless it answers with
    success. *)
Theorem register_face_effects (reg : Registration.t) (w : World) :
  recognition_logs (snd (register_face reg w)) = recognition_logs w /\
  failed_attempts (snd (register_face reg w)) = failed_attempts w /\
  total_students (snd (register_face reg w)) = total_students w /\
  map Student.id (students (snd (register_face reg w)))
  = map Student.id (students w) /\
  match fst (register_face reg w) with
  | FaceRegistered => True
  | _ => students (snd (register_face reg w)) = students w /\
         media (snd (register_face reg w)) = media w
  end.
Proof.
  unfold register_face, failed_attempts, total_students.
  destruct (validated reg) as [[sid up]|];
    [|cbn; repeat split; reflexivity].
  destruct (get_student sid (students w)) as [s|];
    [|cbn; repeat split; reflexivity].
  destruct (Registration.engine_init reg);
    [cbn; repeat split; reflexivity|].
  destruct (as_read up) as [ex|[|f fs]];
    try (cbn; repeat split; reflexivity).
  cbn [fst snd students recognition_logs].
  rewrite save_face_image_ids. unfold save_face_image.
  rewrite length_map. repeat split; reflexivity.
Qed.

(** A registration succeeds exactly when the form is valid, the student
    exists, the engine can be set up and it finds at least one face in
    the upload: an upload showing several faces is registered too. *)
Theorem registration_succeeds_iff (reg : Registration.t) (w : World) :
  fst (register_face reg w) = FaceRegistered <->
  exists sid up f fs,
    validated reg = Some (sid, up) /\
    In sid (map Student.id (students w)) /\
    Registration.engine_init reg = None /\
    as_read up = Detected (f :: fs).
Proof.
  split.
  - unfold register_face.
    destruct (validated reg) as [[sid up]|] eqn:Hval; [|discriminate].
    destruct (get_student sid (students w)) as [s|] eqn:Hs; [|discriminate].
    destruct (Registration.engine_init reg) eqn:Hinit; [discriminate|].
    destruct (as_read up) as [ex|[|f fs]] eqn:Hread; try discriminate.
    intros _. exists sid, up, f, fs.
    repeat split; auto. apply get_student_known. eauto.
  - intros (sid & up & f & fs & Hval & Hin & Hinit & Hread).
    apply get_student_known in Hin. destruct Hin as [s Hs].
    unfold register_face. rewrite Hval, Hs, Hinit, Hread. reflexivity.
Qed.

(** A valid form naming a student who does not exist is answered with
    the server error of the catch-all handler, not with a 404, and
    changes nothing. *)
Theorem unknown_student_is_a_server_error (reg : Registration.t) (w : World)
    (sid : nat) (up : Upload) :
  validated reg = Some (sid, up) ->
  ~ In sid (map Student.id (students w)) ->
  register_face reg w = (RegistrationError, w).
Proof.
  intros Hval Hnot. unfold register_face. rewrite Hval.
  destruct (get_student sid (students w)) as [s|] eqn:Hs; [|reflexivity].
  exfalso. apply Hnot. apply get_student_known. eauto.
Qed.

(** After a successful registration the student named has the stored
    upload as face image, under the upload directory; the other students
    are as they were; and only that path of the storage has changed. *)
Theorem registration_updates_one_student (reg : Registration.t) (w : World)
    (sid : nat) (up : Upload) :
  validated reg = Some (sid, up) ->
  fst (register_face reg w) = FaceRegistered ->
  let path := (upload_to ++ Registration.file_name reg)%string in
  let w' := snd (register_face reg w) in
  In (Student.mk sid path) (students w') /\
  (forall s, In s (students w') -> Student.id s = sid ->
             Student.face_image s = path) /\
  (forall s, Student.id s <> sid ->
             (In s (students w') <-> In s (students w))) /\
  media w' path = as_stored up /\
  (forall q, q <> path -> media w' q = media w q).
Proof.
  intros Hval Hok path w'.
  destruct (register_face_success reg w sid up Hval Hok) as [[s0 Hs0] Hw'].
  apply get_student_some in Hs0. destruct Hs0 as [Hin0 Hid0].
  unfold w'. rewrite Hw'. cbn [students media]. fold path.
  split; [|split; [|split; [|split]]].
  - unfold save_face_image. apply in_map_iff. exists s0.
    rewrite Hid0, Nat.eqb_refl. auto.
  - intros s Hs Hid. unfold save_face_image in Hs.
    apply in_map_iff in Hs. destruct Hs as (x & Hx & _).
    destruct (Nat.eqb (Student.id x) sid) eqn:E.
    + subst s. reflexivity.
    + subst s. apply Nat.eqb_neq in E. contradiction.
  - intros s Hid. unfold save_face_image. rewrite in_map_iff. split.
    + intros (x & Hx & Hin).
      destruct (Nat.eqb (Student.id x) sid) eqn:E.
      * subst s. cbn in Hid. apply Nat.eqb_eq in E. contradiction.
      * subst s. exact Hin.
    + intros Hin. exists s. split; [|exact Hin].
      apply Nat.eqb_neq in Hid. rewrite Hid. reflexivity.
  - unfold store. rewrite String.eqb_refl. reflexivity.
  - intros q Hq. unfold store. apply String.eqb_neq in Hq. rewrite Hq.
    reflexivity.
Qed.

(** ** Registration, then recognition *)






(** ** The further properties on the example data *)

Module MoreExamples.
Import Fixture FixtureFacts RegistrationFixture.

Lemma lower_threshold_keeps_acceptance_witness :
  recognize (with_threshold (request (one_face probe) None) (1 / 10)) w_half
  = recognize (request (one_face probe) None) w_half.
Proof.
  apply (lower_threshold_keeps_acceptance (request (one_face probe) None)
           w_half (1 / 10)).
  - unfold recognition_threshold. cbn. lra.
  - rewrite Examples.accepted_w_half. reflexivity.
Defined.

Lemma gallery_order_keeps_outcome_witness :
  outcome
    (fst (recognize (request (one_face probe) None)
            (mkWorld [bob; alice; carol] (media w_three)
               (recognition_logs w_three) (engine_calls w_three))))
  = outcome (fst (recognize (request (one_face probe) None) w_three)) /\
  response_confidence
    (fst (recognize (request (one_face probe) None)
            (mkWorld [bob; alice; carol] (media w_three)
               (recognition_logs w_three) (engine_calls w_three))))
  = response_confidence (fst (recognize (request (one_face probe) None) w_three)).
Proof.
  apply (gallery_order_keeps_outcome (request (one_face probe) None) w_three
           [bob; alice; carol]).
  apply perm_swap.
Defined.

Lemma unknown_student_is_a_server_error_witness :
  register_face stranger_registers w_half = (RegistrationError, w_half).
Proof.
  apply (unknown_student_is_a_server_error stranger_registers w_half 9 portrait).
  - reflexivity.
  - cbn. intros [H | []]. discriminate.
Defined.

Lemma dave_is_registered :
  fst (register_face dave_registers w_empty) = FaceRegistered.
Proof. reflexivity. Qed.

Lemma registration_updates_one_student_witness :
  In (Student.mk 4 "student_faces/dave.jpg")
     (students (snd (register_face dave_registers w_empty))) /\
  media (snd (register_face dave_registers w_empty)) "student_faces/dave.jpg"
  = one_face probe.
Proof.
  destruct (registration_updates_one_student dave_registers w_empty 4 portrait
              eq_refl dave_is_registered) as (Hin & _ & _ & Hmedia & _).
  split; [exact Hin | exact Hmedia].
Defined.




End MoreExamples.
